(** * sunglass_backend: the SendGrid relay of [backend.js]

    A shallow embedding of the Express application in [src/backend.js]:
    the send-email handler, the health handler, the SendGrid webhook
    handler, and the middleware in front of them: [cors()], the body
    parser and the rate limiter mounted on the send-email route.
    JavaScript values are an inductive type, handlers are state
    transformers over an explicit [World] (rate-limit store, vendor calls,
    console), and the vendor SDK call [sgMail.send] is an oracle.  The
    packages of line 6 are not part of the sources; they are modelled as
    Express 5 and its companions behave: routes match without regard to
    case and to one closing slash, [res.status] refuses what is no status
    code, and [req.body] stays [undefined] without a JSON body. *)

From Stdlib Require Import ZArith NArith String Ascii List Bool Lia.
From stdpp Require Import gmap list.
Import ListNotations.

Local Open Scope bool_scope.
#[local] Set Warnings "-register-all".

(** ** JavaScript values *)

(** A JavaScript string is a sequence of UTF-16 code units. *)
Abbreviation JSString := (list N).

(** String literals of the source, written as Rocq strings. *)
Definition js (s : string) : JSString :=
  map N_of_ascii (list_ascii_of_string s).

Fixpoint str_eqb (a b : JSString) : bool :=
  match a, b with
  | [], [] => true
  | x :: a', y :: b' => N.eqb x y && str_eqb a' b'
  | _, _ => false
  end.

(** A Number is an IEEE-754 double.  [Dec neg m e] is the double nearest
    to [(-1)^neg * m * 10^e] (round to nearest, ties to even), which is
    how numeric literals and [JSON.parse] produce Numbers; every finite
    double and both infinities (by overflow) arise this way. *)
Inductive JSNumber :=
| NaN
| Dec (neg : bool) (m : N) (e : Z).

Definition num (n : N) : JSNumber := Dec false n 0.

(** The decimal [m * 10^e] rounds to (plus or minus) zero when it is zero
    or at most [2^-1075], half of the least positive double. *)
Definition rounds_to_zero (m : N) (e : Z) : bool :=
  N.eqb m 0
  || (Z.ltb e 0 && Z.leb (Z.of_N m * 2 ^ 1075) (10 ^ (- e))).

Inductive JSValue :=
| JUndefined
| JNull
| JBool (b : bool)
| JNum (n : JSNumber)
| JStr (s : JSString)
| JArr (elems : list JSValue)
| JObj (members : list (JSString * JSValue))
| JBuffer (text : JSString).   (* a Node Buffer; [text] is its UTF-8 decoding *)

(** ToBoolean: [undefined], [null], [false], [0], [-0], [NaN] and the
    empty string are falsy; everything else, objects and arrays included,
    is truthy. *)
Definition truthy (v : JSValue) : bool :=
  match v with
  | JUndefined | JNull => false
  | JBool b => b
  | JNum NaN => false
  | JNum (Dec _ m e) => negb (rounds_to_zero m e)
  | JStr s => match s with [] => false | _ => true end
  | JArr _ | JObj _ | JBuffer _ => true
  end.

(** [a || b] *)
Definition js_or (a b : JSValue) : JSValue :=
  if truthy a then a else b.

(** The members of an object in creation order; a later member with the
    same key overwrites an earlier one. *)
Fixpoint lookup_member (k : JSString) (ms : list (JSString * JSValue))
  : option JSValue :=
  match ms with
  | [] => None
  | (k', v) :: rest =>
      match lookup_member k rest with
      | Some v' => Some v'
      | None => if str_eqb k k' then Some v else None
      end
  end.

(** Property read [v.k] for the property names this program reads ([to],
    [subject], [text], [html], [fromEmail], [fromName], [body], [errors],
    [email], [event], [timestamp], [sg_message_id]): none of them is
    defined on the prototypes of arrays, buffers, strings, numbers or
    booleans, so on such values the read gives [undefined].  Reading a property of
    [undefined] or [null] throws a TypeError: [None]. *)
Definition get (v : JSValue) (k : JSString) : option JSValue :=
  match v with
  | JUndefined | JNull => None
  | JObj ms => Some (default JUndefined (lookup_member k ms))
  | _ => Some JUndefined
  end.

Definition nullish (v : JSValue) : bool :=
  match v with
  | JUndefined | JNull => true
  | _ => false
  end.

(** ** Process configuration, vendor SDK, responses *)

(** [process.env]: a variable is either unset or a string. *)
Record Env := {
  FROM_EMAIL : option JSString;
  FROM_NAME : option JSString
}.

Definition env_var (o : option JSString) : JSValue :=
  match o with
  | Some s => JStr s
  | None => JUndefined
  end.

(** The payload handed to [sgMail.send] (lines 51-64). *)
Record Msg := {
  msg_to : JSValue;
  msg_from_email : JSValue;
  msg_from_name : JSValue;
  msg_subject : JSValue;
  msg_text : JSValue;
  msg_html : JSValue;
  msg_clickTracking : bool;
  msg_openTracking : bool
}.

(** What [sgMail.send] resolves with: a pair whose first component is the
    HTTP response of the vendor, with its header object. *)
Record ClientResponse := {
  resp_statusCode : JSValue;
  resp_headers : list (JSString * JSValue)
}.

(** An error object as the [catch] block reads it. *)
Record JSError := {
  err_message : JSValue;
  err_code : JSValue;
  err_response : JSValue
}.

Inductive SendResult :=
| Resolved (response : ClientResponse)
| Rejected (error : JSError).

Inductive Payload :=
| SendJson (v : JSValue)       (* res.json(v) *)
| SendText (s : JSString).     (* res.send(s) *)

(** What a handler sends: the value it passes to [res.status] and the
    payload it passes to [res.json] or [res.send]. *)
Record Response := {
  status : JSValue;
  payload : Payload
}.

(** Exceptions that leave a handler uncaught.  [InvalidStatus] is what
    [res.status] throws for a code it does not accept: a TypeError when
    the code is not an integer, a RangeError when it is an integer outside
    100..999. *)
Inductive Exception := TypeError | SyntaxError | InvalidStatus.

Inductive Outcome :=
| Responded (r : Response)
| Threw (e : Exception)
| NotFound                     (* no route of the file matches *)
| ParserError (status : N).    (* express.json() refused the body: the default
                                  error handler answers with this status *)

Inductive LogEntry :=
| LogEmailSent (to subject messageId : JSValue)    (* console.log, line 70 *)
| LogSendGridError (error : JSError)               (* console.error, line 83 *)
| LogSendGridEvent (email event timestamp messageId : JSValue). (* line 113 *)

Inductive Method := GET | HEAD | POST | OPTIONS | OtherMethod.

(** A request as the handlers see it: [body] is [req.body] as the body
    parsers left it ([express.json()], line 25, and on the webhook route
    [express.raw], line 109). *)
Record Request := {
  ip : JSString;
  method : Method;
  path : JSString;
  body : JSValue
}.

(** The state the application touches: the hit counters of the rate
    limiter, the calls made to the vendor, and the console. *)
Record World := {
  hits : gmap JSString nat;
  vendor_calls : list Msg;
  console : list LogEntry
}.

Definition log (e : LogEntry) (w : World) : World :=
  {| hits := hits w; vendor_calls := vendor_calls w;
     console := console w ++ [e] |}.

Definition record_call (m : Msg) (w : World) : World :=
  {| hits := hits w; vendor_calls := vendor_calls w ++ [m];
     console := console w |}.

(** ** [JSON.parse]

    The JSON grammar of ECMA-404 as [JSON.parse] accepts it, as a lexer
    and a pushdown parser that each consume the text one code unit (one
    token) at a time. *)
Module JSON.

Definition ch (a : ascii) : N := N_of_ascii a.

Definition is_char c (a : ascii) : bool := N.eqb c (ch a).

(** The quotation mark. *)
Definition is_quote (c : N) : bool := N.eqb c 34.

Definition is_ws (c : N) : bool :=
  N.eqb c 32 || N.eqb c 9 || N.eqb c 10 || N.eqb c 13.

Definition digit (c : N) : option N :=
  if N.leb 48 c && N.leb c 57 then Some (c - 48)%N else None.

Definition hex (c : N) : option N :=
  if N.leb 48 c && N.leb c 57 then Some (c - 48)%N
  else if N.leb 65 c && N.leb c 70 then Some (c - 55)%N
  else if N.leb 97 c && N.leb c 102 then Some (c - 87)%N
  else None.

Inductive Token :=
| TPunct (c : N)              (* one of { } [ ] : , *)
| TStr (s : JSString)
| TAtom (v : JSValue).        (* a number, true, false or null *)

(** Where the lexer is inside a number: an optional minus sign; then a
    single 0, or a nonzero digit followed by digits; then optionally a
    point and at least one digit; then optionally e or E, an optional
    sign and at least one digit. *)
Inductive NumState :=
| NMinus | NZero | NInt | NDot | NFrac | NExp | NExpSign | NExpDigits.

Record NumAcc := {
  n_neg : bool;      (* sign of the number *)
  n_mant : N;        (* digits of the integer and fraction parts *)
  n_scale : Z;       (* number of fraction digits *)
  n_eneg : bool;     (* sign of the exponent *)
  n_exp : N          (* digits of the exponent *)
}.

Inductive Lex :=
| LStart
| LString (acc : JSString)                   (* code units so far, reversed *)
| LEscape (acc : JSString)                   (* after a backslash *)
| LUnicode (acc : JSString) (k : nat) (v : N)  (* k hex digits of \u read *)
| LLiteral (rest : JSString) (v : JSValue)   (* rest of true, false, null *)
| LNumber (st : NumState) (a : NumAcc).

Definition number_of (a : NumAcc) : JSValue :=
  let ex := if n_eneg a then (- Z.of_N (n_exp a))%Z else Z.of_N (n_exp a) in
  JNum (Dec (n_neg a) (n_mant a) (ex - n_scale a)).

Definition push_digit (d : N) (frac : bool) (a : NumAcc) : NumAcc :=
  {| n_neg := n_neg a; n_mant := (n_mant a * 10 + d)%N;
     n_scale := if frac then (n_scale a + 1)%Z else n_scale a;
     n_eneg := n_eneg a; n_exp := n_exp a |}.

Definition push_exp_digit (d : N) (a : NumAcc) : NumAcc :=
  {| n_neg := n_neg a; n_mant := n_mant a; n_scale := n_scale a;
     n_eneg := n_eneg a; n_exp := (n_exp a * 10 + d)%N |}.

Definition set_exp_neg (a : NumAcc) : NumAcc :=
  {| n_neg := n_neg a; n_mant := n_mant a; n_scale := n_scale a;
     n_eneg := true; n_exp := n_exp a |}.

Definition acc0 (neg : bool) (d : N) : NumAcc :=
  {| n_neg := neg; n_mant := d; n_scale := 0; n_eneg := false; n_exp := 0 |}.

(** A code unit at the start of a token. *)
Definition lex_start (c : N) : option (Lex * list Token) :=
  if is_ws c then Some (LStart, [])
  else if is_char c "{" || is_char c "}" || is_char c "[" || is_char c "]" || is_char c ":" || is_char c ","
  then Some (LStart, [TPunct c])
  else if is_quote c then Some (LString [], [])
  else if is_char c "-" then Some (LNumber NMinus (acc0 true 0), [])
  else if is_char c "0" then Some (LNumber NZero (acc0 false 0), [])
  else if is_char c "t" then Some (LLiteral (js "rue") (JBool true), [])
  else if is_char c "f" then Some (LLiteral (js "alse") (JBool false), [])
  else if is_char c "n" then Some (LLiteral (js "ull") JNull, [])
  else match digit c with
       | Some d => Some (LNumber NInt (acc0 false d), [])
       | None => None
       end.

(** The number ends before [c]: emit it and lex [c] afresh. *)
Definition end_number (a : NumAcc) (c : N) : option (Lex * list Token) :=
  match lex_start c with
  | Some (st, toks) => Some (st, TAtom (number_of a) :: toks)
  | None => None
  end.

Definition is_e (c : N) : bool := is_char c "e" || is_char c "E".

Definition lex_number (st : NumState) (a : NumAcc) (c : N)
  : option (Lex * list Token) :=
  match st with
  | NMinus =>
      match digit c with
      | Some 0%N => Some (LNumber NZero a, [])
      | Some d => Some (LNumber NInt (push_digit d false a), [])
      | None => None
      end
  | NZero =>
      if is_char c "." then Some (LNumber NDot a, [])
      else if is_e c then Some (LNumber NExp a, [])
      else end_number a c
  | NInt =>
      match digit c with
      | Some d => Some (LNumber NInt (push_digit d false a), [])
      | None =>
          if is_char c "." then Some (LNumber NDot a, [])
          else if is_e c then Some (LNumber NExp a, [])
          else end_number a c
      end
  | NDot =>
      match digit c with
      | Some d => Some (LNumber NFrac (push_digit d true a), [])
      | None => None
      end
  | NFrac =>
      match digit c with
      | Some d => Some (LNumber NFrac (push_digit d true a), [])
      | None => if is_e c then Some (LNumber NExp a, []) else end_number a c
      end
  | NExp =>
      if is_char c "+" then Some (LNumber NExpSign a, [])
      else if is_char c "-" then Some (LNumber NExpSign (set_exp_neg a), [])
      else match digit c with
           | Some d => Some (LNumber NExpDigits (push_exp_digit d a), [])
           | None => None
           end
  | NExpSign =>
      match digit c with
      | Some d => Some (LNumber NExpDigits (push_exp_digit d a), [])
      | None => None
      end
  | NExpDigits =>
      match digit c with
      | Some d => Some (LNumber NExpDigits (push_exp_digit d a), [])
      | None => end_number a c
      end
  end.

Definition lex_escape (acc : JSString) (c : N) : option (Lex * list Token) :=
  if is_quote c || is_char c "\" || is_char c "/"
  then Some (LString (c :: acc), [])
  else if is_char c "b" then Some (LString (8%N :: acc), [])
  else if is_char c "f" then Some (LString (12%N :: acc), [])
  else if is_char c "n" then Some (LString (10%N :: acc), [])
  else if is_char c "r" then Some (LString (13%N :: acc), [])
  else if is_char c "t" then Some (LString (9%N :: acc), [])
  else if is_char c "u" then Some (LUnicode acc 0 0, [])
  else None.

Definition lex_step (st : Lex) (c : N) : option (Lex * list Token) :=
  match st with
  | LStart => lex_start c
  | LString acc =>
      if is_quote c then Some (LStart, [TStr (rev acc)])
      else if is_char c "\" then Some (LEscape acc, [])
      else if N.ltb c 32 then None
      else Some (LString (c :: acc), [])
  | LEscape acc => lex_escape acc c
  | LUnicode acc k v =>
      match hex c with
      | Some h =>
          let v' := (v * 16 + h)%N in
          match k with
          | 3%nat => Some (LString (v' :: acc), [])
          | _ => Some (LUnicode acc (S k) v', [])
          end
      | None => None
      end
  | LLiteral rest v =>
      match rest with
      | [] => None
      | x :: rest' =>
          if N.eqb c x
          then match rest' with
               | [] => Some (LStart, [TAtom v])
               | _ => Some (LLiteral rest' v, [])
               end
          else None
      end
  | LNumber st a => lex_number st a c
  end.

(** At the end of the text only a complete number may be pending. *)
Definition lex_end (st : Lex) : option (list Token) :=
  match st with
  | LStart => Some []
  | LNumber (NZero | NInt | NFrac | NExpDigits) a => Some [TAtom (number_of a)]
  | _ => None
  end.

(** The parser keeps a stack of the arrays and objects that are open;
    members and elements are accumulated in reverse. *)
Inductive Frame :=
| FArr (acc : list JSValue)
| FObj (acc : list (JSString * JSValue)) (key : option JSString).

Inductive Mode :=
| MValue              (* a value must follow *)
| MFirst              (* just after [ or {: a value (a key) or the closer *)
| MKey                (* after a comma in an object: a key *)
| MColon              (* after a key *)
| MNext               (* after a value in a container: a comma or the closer *)
| MDone (v : JSValue). (* the top-level value is complete *)

Definition PState : Type := list Frame * Mode.

(** A complete value goes to the innermost open container. *)
Definition put_value (v : JSValue) (stack : list Frame) : option PState :=
  match stack with
  | [] => Some ([], MDone v)
  | FArr acc :: s => Some (FArr (v :: acc) :: s, MNext)
  | FObj acc (Some k) :: s => Some (FObj ((k, v) :: acc) None :: s, MNext)
  | FObj _ None :: _ => None
  end.

Definition close (c : N) (stack : list Frame) : option PState :=
  match stack with
  | FArr acc :: s => if is_char c "]" then put_value (JArr (rev acc)) s else None
  | FObj acc None :: s =>
      if is_char c "}" then put_value (JObj (rev acc)) s else None
  | _ => None
  end.

Definition begin_value (t : Token) (stack : list Frame) : option PState :=
  match t with
  | TAtom v => put_value v stack
  | TStr s => put_value (JStr s) stack
  | TPunct c =>
      if is_char c "[" then Some (FArr [] :: stack, MFirst)
      else if is_char c "{" then Some (FObj [] None :: stack, MFirst)
      else None
  end.

Definition begin_member (t : Token) (stack : list Frame) : option PState :=
  match t, stack with
  | TStr k, FObj acc None :: s => Some (FObj acc (Some k) :: s, MColon)
  | _, _ => None
  end.

Definition is_closer (t : Token) : option N :=
  match t with
  | TPunct c => if is_char c "]" || is_char c "}" then Some c else None
  | _ => None
  end.

Definition parse_step (st : PState) (t : Token) : option PState :=
  let (stack, mode) := st in
  match mode with
  | MValue => begin_value t stack
  | MFirst =>
      match is_closer t with
      | Some c => close c stack
      | None =>
          match stack with
          | FObj _ _ :: _ => begin_member t stack
          | _ => begin_value t stack
          end
      end
  | MKey => begin_member t stack
  | MColon =>
      match t with
      | TPunct c => if is_char c ":" then Some (stack, MValue) else None
      | _ => None
      end
  | MNext =>
      match t with
      | TPunct c =>
          if is_char c ","
          then match stack with
               | FArr _ :: _ => Some (stack, MValue)
               | FObj _ _ :: _ => Some (stack, MKey)
               | [] => None
               end
          else close c stack
      | _ => None
      end
  | MDone _ => None
  end.

Fixpoint parse_tokens (st : PState) (ts : list Token) : option PState :=
  match ts with
  | [] => Some st
  | t :: ts' =>
      match parse_step st t with
      | Some st' => parse_tokens st' ts'
      | None => None
      end
  end.

(** One code unit: lex it and feed the tokens it completes to the parser. *)
Definition step (st : Lex * PState) (c : N) : option (Lex * PState) :=
  match lex_step (fst st) c with
  | Some (l, toks) =>
      match parse_tokens (snd st) toks with
      | Some p => Some (l, p)
      | None => None
      end
  | None => None
  end.

Fixpoint run (text : JSString) (st : Lex * PState) : option (Lex * PState) :=
  match text with
  | [] => Some st
  | c :: text' =>
      match step st c with
      | Some st' => run text' st'
      | None => None
      end
  end.

Definition finish (st : Lex * PState) : option JSValue :=
  match lex_end (fst st) with
  | Some toks =>
      match parse_tokens (snd st) toks with
      | Some (_, MDone v) => Some v
      | _ => None
      end
  | None => None
  end.

(** [JSON.parse(text)]; [None] when it throws a SyntaxError. *)
Definition parse (text : JSString) : option JSValue :=
  match run text (LStart, ([], MValue)) with
  | Some st => finish st
  | None => None
  end.

End JSON.

(** ** [toString] *)

Section ToString.

(** [Number.prototype.toString]: the shortest decimal that reads back as
    the same double.  Its digits are not modelled; nothing proved below
    depends on them. *)
Variable Number_toString : JSNumber -> JSString.

Definition join_comma (parts : list JSString) : JSString :=
  match parts with
  | [] => []
  | p :: ps => p ++ concat (map (fun q => JSON.ch "," :: q) ps)
  end.

Definition sequence {A} (l : list (option A)) : option (list A) :=
  fold_right
    (fun o acc =>
       match o, acc with
       | Some x, Some xs => Some (x :: xs)
       | _, _ => None
       end)
    (Some []) l.

(** [String(v)].  An object parsed from JSON prints as [[object Object]]
    unless it has a member named [toString], which (never being a
    function) makes the conversion throw a TypeError: [None].
    [Array.prototype.toString] joins the elements with commas, printing
    [null] and [undefined] elements as the empty string. *)
Fixpoint to_string (v : JSValue) : option JSString :=
  match v with
  | JUndefined => Some (js "undefined")
  | JNull => Some (js "null")
  | JBool true => Some (js "true")
  | JBool false => Some (js "false")
  | JNum n => Some (Number_toString n)
  | JStr s => Some s
  | JBuffer text => Some text
  | JObj ms =>
      match lookup_member (js "toString") ms with
      | Some _ => None
      | None => Some (js "[object Object]")
      end
  | JArr elems =>
      option_map join_comma
        (sequence
           (map (fun e => if nullish e then Some [] else to_string e) elems))
  end.

(** The method call [v.toString()]: a TypeError on [undefined] and
    [null]. *)
Definition toString (v : JSValue) : option JSString :=
  if nullish v then None else to_string v.

End ToString.

(** ** The application *)

Definition default_from_email : JSString := js "anya.sunglassretailer@gmail.com".
Definition default_from_name : JSString := js "Anya Ganger".

Definition missing_fields_message : JSString :=
  js "Missing required fields: to, subject, and text/html".

Definition num_status (n : N) : JSValue := JNum (num n).

(** The fields read off [req.body] on line 41. *)
Record Fields := {
  f_to : JSValue;
  f_subject : JSValue;
  f_text : JSValue;
  f_html : JSValue;
  f_fromEmail : JSValue;
  f_fromName : JSValue
}.

(** [const { to, subject, text, html, fromEmail, fromName } = req.body];
    [None] when the body is [undefined] or [null] and the destructuring
    throws. *)
Definition destructure (b : JSValue) : option Fields :=
  to ← get b (js "to");
  subject ← get b (js "subject");
  text ← get b (js "text");
  html ← get b (js "html");
  fromEmail ← get b (js "fromEmail");
  fromName ← get b (js "fromName");
  Some {| f_to := to; f_subject := subject; f_text := text; f_html := html;
          f_fromEmail := fromEmail; f_fromName := fromName |}.

(** The TypeError of a failed destructuring, in V8's wording. *)
Definition destructure_error (b : JSValue) : JSError :=
  {| err_message :=
       JStr (js "Cannot destructure property 'to' of 'req.body' as it is "
             ++ match b with JNull => js "null." | _ => js "undefined." end);
     err_code := JUndefined;
     err_response := JUndefined |}.

(** Line 44: [!to || !subject || (!text && !html)]. *)
Definition missing_required (f : Fields) : bool :=
  negb (truthy (f_to f)) || negb (truthy (f_subject f))
  || (negb (truthy (f_text f)) && negb (truthy (f_html f))).

(** [res.status(code)], as Express 5 has it, accepts a Number that is an
    integer from 100 to 999 and throws for every other value.  The double
    nearest to [m * 10^e] is such an integer [k] exactly when the decimal
    lies within half a unit in the last place of [k]: [2^(p-53)] above
    [k], and as much below, or [2^(p-54)] below when [k = 2^p], where [p]
    is the binary logarithm of [k], rounded down; the bounds belong to
    [k], whose significand is even.  Both sides are scaled by [2^54]. *)
Definition is_status_number (m : N) (e : Z) : bool :=
  let mz := Z.of_N m in
  if (0 <=? e)%Z then
    let v := (mz * 10 ^ e)%Z in (100 <=? v)%Z && (v <=? 999)%Z
  else
    let d := (10 ^ (- e))%Z in
    let k := ((2 * mz + d) / (2 * d))%Z in
    (100 <=? k)%Z && (k <=? 999)%Z
    && (let p := Z.log2 k in
        let hi := (2 ^ (p + 1))%Z in
        let lo := if (k =? 2 ^ p)%Z then (2 ^ p)%Z else (2 ^ (p + 1))%Z in
        ((k * 2 ^ 54 - lo) * d <=? mz * 2 ^ 54)%Z
        && (mz * 2 ^ 54 <=? (k * 2 ^ 54 + hi) * d)%Z).

Definition valid_status (code : JSValue) : bool :=
  match code with
  | JNum (Dec false m e) => is_status_number m e
  | _ => false
  end.

Definition missing_fields_response : Response :=
  {| status := num_status 400;
     payload := SendJson (JObj [(js "error", JStr missing_fields_message)]) |}.

Definition header (r : ClientResponse) (name : JSString) : JSValue :=
  default JUndefined (lookup_member name (resp_headers r)).

Definition success_response (messageId : JSValue) : Response :=
  {| status := num_status 200;
     payload := SendJson (JObj [(js "success", JBool true);
                                (js "messageId", messageId);
                                (js "message", JStr (js "Email sent successfully"))]) |}.

Definition health_response : Response :=
  {| status := num_status 200;
     payload := SendJson (JObj [(js "status", JStr (js "OK"));
                                (js "message", JStr (js "Backend is running"))]) |}.

Definition webhook_response : Response :=
  {| status := num_status 200; payload := SendText (js "OK") |}.

Section App.

Variable env : Env.

(** [sgMail.send]: the outcome of the call, which may depend on the
    payload and on how many calls were made before. *)
Variable sgMail_send : nat -> Msg -> SendResult.

Variable Number_toString : JSNumber -> JSString.

(** Lines 51-64. *)
Definition build_msg (f : Fields) : Msg :=
  {| msg_to := f_to f;
     msg_from_email :=
       js_or (js_or (f_fromEmail f) (env_var (FROM_EMAIL env)))
             (JStr default_from_email);
     msg_from_name :=
       js_or (js_or (f_fromName f) (env_var (FROM_NAME env)))
             (JStr default_from_name);
     msg_subject := f_subject f;
     msg_text := f_text f;
     msg_html := js_or (f_html f) (f_text f);
     msg_clickTracking := true;
     msg_openTracking := true |}.

(** The [catch] block, lines 82-96.  [res.status(error.code || 500)] is
    called first and throws when the code is not a valid status; then the
    argument of [json] is built, and reading [error.response.body.errors]
    throws when the body is [undefined] or [null].  Either exception is
    raised inside the [catch] block and leaves the handler. *)
Definition catch_block (error : JSError) (w : World) : Outcome * World :=
  let w1 := log (LogSendGridError error) w in
  if truthy (err_response error) then
    let code := js_or (err_code error) (num_status 500) in
    if valid_status code then
      match get (err_response error) (js "body") ≫= (fun b => get b (js "errors")) with
      | Some errors =>
          (Responded
             {| status := code;
                payload := SendJson
                  (JObj [(js "error", JStr (js "SendGrid API error"));
                         (js "details", js_or errors (err_message error))]) |},
           w1)
      | None => (Threw TypeError, w1)
      end
    else (Threw InvalidStatus, w1)
  else
    (Responded
       {| status := num_status 500;
          payload := SendJson
            (JObj [(js "error", JStr (js "Server error"));
                   (js "details", err_message error)]) |},
     w1).

(** [app.post('/api/send-email', ...)], lines 39-97. *)
Definition send_email_handler (req : Request) (w : World) : Outcome * World :=
  match destructure (body req) with
  | None => catch_block (destructure_error (body req)) w
  | Some f =>
      if missing_required f then (Responded missing_fields_response, w)
      else
        let msg := build_msg f in
        let w1 := record_call msg w in
        match sgMail_send (length (vendor_calls w)) msg with
        | Resolved response =>
            let messageId := header response (js "x-message-id") in
            (Responded (success_response messageId),
             log (LogEmailSent (f_to f) (f_subject f) messageId) w1)
        | Rejected error => catch_block error w1
        end
  end.

(** [app.get('/api/health', ...)], lines 100-102. *)
Definition health_handler (req : Request) (w : World) : Outcome * World :=
  (Responded health_response, w).

(** The [switch] of lines 121-135: every branch is empty. *)
Definition dispatch_event (kind : JSValue) (w : World) : World :=
  match kind with
  | JStr s =>
      if str_eqb s (js "delivered") then w
      else if str_eqb s (js "open") then w
      else if str_eqb s (js "click") then w
      else if str_eqb s (js "bounce") || str_eqb s (js "dropped") then w
      else w
  | _ => w
  end.

(** The callback of [events.forEach], lines 112-136; [None] when reading
    a property of the event throws. *)
Definition handle_event (event : JSValue) (w : World) : option World :=
  email ← get event (js "email");
  kind ← get event (js "event");
  timestamp ← get event (js "timestamp");
  messageId ← get event (js "sg_message_id");
  Some (dispatch_event kind (log (LogSendGridEvent email kind timestamp messageId) w)).

(** [events.forEach]: stops at the first event whose callback throws;
    what was logged before stays logged. *)
Fixpoint forEach_event (events : list JSValue) (w : World) : option unit * World :=
  match events with
  | [] => (Some tt, w)
  | e :: rest =>
      match handle_event e w with
      | Some w' => forEach_event rest w'
      | None => (None, w)
      end
  end.

(** [app.post('/api/sendgrid-webhook', ...)], lines 109-139. *)
Definition sendgrid_webhook (req : Request) (w : World) : Outcome * World :=
  match toString Number_toString (body req) with
  | None => (Threw TypeError, w)
  | Some text =>
      match JSON.parse text with
      | None => (Threw SyntaxError, w)
      | Some (JArr events) =>
          match forEach_event events w with
          | (Some _, w') => (Responded webhook_response, w')
          | (None, w') => (Threw TypeError, w')
          end
      | Some _ => (Threw TypeError, w)     (* events.forEach is not a function *)
      end
  end.

(** *** The rate limiter, lines 31-36 *)

Record RateLimitOptions := {
  windowMs : Z;
  max : nat;
  message : JSString
}.

Definition emailRateLimit_options : RateLimitOptions :=
  {| windowMs := 15 * 60 * 1000;
     max := 100;
     message := js "Too many email requests, please try again later." |}.

(** Modelled from the spec: the middleware built by [rateLimit] comes from
    the express-rate-limit package, which is not part of the sources.  The
    spec describes it as a request-count-based throttle that caps the
    requests per source address per fixed time window, requests exceeding
    the cap receiving a fixed rejection response instead of being
    processed.  The store holds, per source address, the requests counted
    in the current window; a request is counted and passes when the count
    does not exceed [max].  The windows themselves are the work of
    [open_window] below. *)
Definition rate_limit (opts : RateLimitOptions) (key : JSString)
    (store : gmap JSString nat) : gmap JSString nat * bool :=
  let n := S (default 0 (store !! key)) in
  (<[key := n]> store, n <=? max opts).

(** Modelled from the spec: the rejection, the [message] option sent as
    plain text with the package's default status 429. *)
Definition rate_limit_response (opts : RateLimitOptions) : Response :=
  {| status := num_status 429; payload := SendText (message opts) |}.

Definition set_hits (store : gmap JSString nat) (w : World) : World :=
  {| hits := store; vendor_calls := vendor_calls w; console := console w |}.

(** *** Routing *)

(** Express matches paths without regard to the case of letters (the
    application of line 16 does not enable case sensitive routing): the
    letters A to Z count as a to z. *)
Definition lower (c : N) : N :=
  if N.leb 65 c && N.leb c 90 then (c + 32)%N else c.

(** What is left of the path [s] after the pattern [p]. *)
Fixpoint strip_prefix (p s : JSString) : option JSString :=
  match p, s with
  | [], _ => Some s
  | x :: p', y :: s' =>
      if N.eqb (lower x) (lower y) then strip_prefix p' s' else None
  | _ :: _, [] => None
  end.

(** [app.use(mount, ...)] applies to the mount path and to the paths
    below it. *)
Definition mounted_at (mount path : JSString) : bool :=
  match strip_prefix mount path with
  | Some [] => true
  | Some (c :: _) => JSON.is_char c "/"
  | None => false
  end.

(** [app.get(pattern, ...)] and [app.post(pattern, ...)] apply to the
    pattern itself, with or without one slash after it (the application
    does not enable strict routing). *)
Definition path_matches (pattern path : JSString) : bool :=
  match strip_prefix pattern path with
  | Some [] => true
  | Some [c] => JSON.is_char c "/"
  | _ => false
  end.

Definition method_eqb (a b : Method) : bool :=
  match a, b with
  | GET, GET | HEAD, HEAD | POST, POST | OPTIONS, OPTIONS
  | OtherMethod, OtherMethod => true
  | _, _ => false
  end.

(** The routes, in the order of the file.  A route declared with
    [app.get] serves HEAD requests as well. *)
Definition route (req : Request) (w : World) : Outcome * World :=
  if method_eqb (method req) POST && path_matches (js "/api/send-email") (path req)
  then send_email_handler req w
  else if (method_eqb (method req) GET || method_eqb (method req) HEAD)
          && path_matches (js "/api/health") (path req)
  then health_handler req w
  else if method_eqb (method req) POST
          && path_matches (js "/api/sendgrid-webhook") (path req)
  then sendgrid_webhook req w
  else (NotFound, w).

(** The preflight answer of [cors()], line 19: an empty 204. *)
Definition preflight_response : Response :=
  {| status := num_status 204; payload := SendText [] |}.

(** One request whose body [express.json()] has accepted, arriving in
    the current window of its source, through the rest of the middleware
    stack: [cors()] answers every OPTIONS request itself; the rate limiter
    guards the send-email mount point; then the routes.  [server] below
    puts the body parser and the windows of the limiter around it. *)
Definition app (req : Request) (w : World) : Outcome * World :=
  if method_eqb (method req) OPTIONS then (Responded preflight_response, w)
  else if mounted_at (js "/api/send-email") (path req) then
    let (store, pass) := rate_limit emailRateLimit_options (ip req) (hits w) in
    if pass then route req (set_hits store w)
    else (Responded (rate_limit_response emailRateLimit_options),
          set_hits store w)
  else route req w.

(** Requests served one after the other. *)
Fixpoint serve (handler : Request -> World -> Outcome * World)
    (reqs : list Request) (w : World) : list Outcome * World :=
  match reqs with
  | [] => ([], w)
  | r :: rest =>
      let (o, w1) := handler r w in
      let (os, w2) := serve handler rest w1 in
      (o :: os, w2)
  end.

(** *** The whole stack, from the request as it arrives *)

(** What a request carries as its body. *)
Inductive Content :=
| NoJson                  (* no body, or a body of another content type *)
| Json (text : JSString)  (* a body of type application/json, decoded *)
| Refused (status : N).   (* a JSON body that the parser refuses unread:
                             too large (413), unsupported charset or
                             encoding (415) *)

(** A request as it arrives: [arrival] is [Date.now()], in milliseconds,
    when the request reaches the server. *)
Record Incoming := {
  src_ip : JSString;
  in_method : Method;
  in_path : JSString;
  arrival : Z;
  content : Content
}.

(** The first code unit that is not JSON white space. *)
Fixpoint first_char (text : JSString) : option N :=
  match text with
  | [] => None
  | c :: rest => if JSON.is_ws c then first_char rest else Some c
  end.

(** [express.json()], line 25, is the body-parser package, which is not
    part of the sources; this is what it does with the default options
    of line 25.  It leaves [req.body] [undefined] when there is no JSON
    body; it reads an empty body as [{}]; being strict, it refuses a text
    that does not begin with a brace or a bracket; otherwise it stores
    what [JSON.parse] returns.  A text it refuses makes the default error
    handler answer 400: [inl]. *)
Definition express_json (c : Content) : N + JSValue :=
  match c with
  | NoJson => inr JUndefined
  | Refused status => inl status
  | Json [] => inr (JObj [])
  | Json text =>
      match first_char text with
      | Some c =>
          if JSON.is_char c "{" || JSON.is_char c "["
          then match JSON.parse text with
               | Some v => inr v
               | None => inl 400%N
               end
          else inl 400%N
      | None => inl 400%N
      end
  end.

(** The state of the server: the world, and for each source the time at
    which its current window of the rate limiter ends. *)
Record Server := {
  world : World;
  resets : gmap JSString Z
}.

(** Modelled from the spec: the windows of the rate limiter, as the
    memory store of the express-rate-limit package keeps them.  The
    window of a source begins with the first request counted for it and
    lasts [windowMs]; a request that arrives when the window has ended, or
    when there is none, begins a new one, with nothing counted yet. *)
Definition open_window (opts : RateLimitOptions) (key : JSString) (now : Z)
    (s : Server) : Server :=
  let fresh :=
    {| world := set_hits (delete key (hits (world s))) (world s);
       resets := <[key := (now + windowMs opts)%Z]> (resets s) |} in
  match resets s !! key with
  | Some t => if (now <? t)%Z then s else fresh
  | None => fresh
  end.

(** The request that the body parser passes on. *)
Definition parsed (inc : Incoming) (b : JSValue) : Request :=
  {| ip := src_ip inc; method := in_method inc; path := in_path inc; body := b |}.

(** One arriving request through the whole stack, in the order of the
    file: [cors()] (line 19) answers an OPTIONS request before anything
    else sees it; [express.json()] (line 25) answers for a body it
    refuses; the rate limiter (line 36) opens a window when that is due
    and counts; then the routes. *)
Definition server (inc : Incoming) (s : Server) : Outcome * Server :=
  if method_eqb (in_method inc) OPTIONS then (Responded preflight_response, s)
  else
    match express_json (content inc) with
    | inl status => (ParserError status, s)
    | inr b =>
        let s1 :=
          if mounted_at (js "/api/send-email") (in_path inc)
          then open_window emailRateLimit_options (src_ip inc) (arrival inc) s
          else s in
        let (o, w') := app (parsed inc b) (world s1) in
        (o, {| world := w'; resets := resets s1 |})
    end.

(** Arriving requests handled one after the other. *)
Fixpoint serve_all (step : Incoming -> Server -> Outcome * Server)
    (incs : list Incoming) (s : Server) : list Outcome * Server :=
  match incs with
  | [] => ([], s)
  | inc :: rest =>
      let (o, s1) := step inc s in
      let (os, s2) := serve_all step rest s1 in
      (o :: os, s2)
  end.

End App.

(** ** Statements of the specification *)

(** The sender the process configuration provides: the environment
    variable when it is set to a non-empty string, the literal built into
    the source otherwise. *)
Definition configured_or (o : option JSString) (builtin : JSString) : JSString :=
  match o with
  | Some (c :: s) => c :: s
  | _ => builtin
  end.

(** A request passes validation: the body can be destructured and the
    test of line 44 does not reject it. *)
Definition valid_request (req : Request) (f : Fields) : Prop :=
  destructure (body req) = Some f /\ missing_required f = false.

(** The sender "taken from process configuration" read literally: the
    payload carries the values of the environment variables. *)
Definition sender_read_from_env (env : Env)
    (sgMail_send : nat -> Msg -> SendResult) (req : Request) (w : World) : Prop :=
  forall f, valid_request req f ->
    exists msg,
      vendor_calls (send_email_handler env sgMail_send req w).2
        = vendor_calls w ++ [msg]
      /\ (f_fromEmail f = JUndefined ->
          msg_from_email msg = env_var (FROM_EMAIL env))
      /\ (f_fromName f = JUndefined ->
          msg_from_name msg = env_var (FROM_NAME env))
      /\ (f_html f = JUndefined -> msg_html msg = f_text f).

(** "The vendor's status code, or 500 when that code is absent". *)
Definition code_or_500 (e : JSError) : JSValue :=
  match err_code e with
  | JUndefined => num_status 500
  | c => c
  end.

(** The vendor's error list: the [errors] member of the response body. *)
Definition error_list (b : JSValue) : JSValue :=
  default JUndefined (get b (js "errors")).

(** A vendor-API error: the thrown error carries a response whose body is
    [b], neither [undefined] nor [null]. *)
Definition carries_response_body (e : JSError) (b : JSValue) : Prop :=
  truthy (err_response e) = true
  /\ get (err_response e) (js "body") = Some b
  /\ nullish b = false.

(** The vendor error passed through with [details] read literally as the
    vendor's error list. *)
Definition details_are_error_list (env : Env)
    (sgMail_send : nat -> Msg -> SendResult) (req : Request) (w : World) : Prop :=
  forall f e b, valid_request req f ->
    sgMail_send (length (vendor_calls w)) (build_msg env f) = Rejected e ->
    carries_response_body e b ->
    (send_email_handler env sgMail_send req w).1
      = Responded
          {| status := code_or_500 e;
             payload := SendJson
               (JObj [(js "error", JStr (js "SendGrid API error"));
                      (js "details", error_list b)]) |}.

(** The code of the error is a status code, one that [res.status]
    accepts, or is absent. *)
Definition has_status_code_or_none (e : JSError) : Prop :=
  err_code e = JUndefined \/ valid_status (err_code e) = true.

(** The thrown error carries no response body: it has no response, or a
    response whose body is [undefined] or [null]. *)
Definition carries_no_response_body (e : JSError) : Prop :=
  truthy (err_response e) = false
  \/ exists b, get (err_response e) (js "body") = Some b /\ nullish b = true.

(** Every error without a response body answered 500 "Server error". *)
Definition no_body_answered_500 (env : Env)
    (sgMail_send : nat -> Msg -> SendResult) (req : Request) (w : World) : Prop :=
  forall f e, valid_request req f ->
    sgMail_send (length (vendor_calls w)) (build_msg env f) = Rejected e ->
    carries_no_response_body e ->
    (send_email_handler env sgMail_send req w).1
      = Responded
          {| status := num_status 500;
             payload := SendJson
               (JObj [(js "error", JStr (js "Server error"));
                      (js "details", err_message e)]) |}.

(** All requests of a sequence are POSTs to the send-email route from one
    source address. *)
Definition send_email_from (src : JSString) (req : Request) : Prop :=
  ip req = src /\ method req = POST /\ path req = js "/api/send-email".




(** *** Sample data *)

Definition env_unset : Env := {| FROM_EMAIL := None; FROM_NAME := None |}.

(** The values suggested in the comment of lines 196-200. *)
Definition env_configured : Env :=
  {| FROM_EMAIL := Some (js "ganger@wharton.upenn.edu");
     FROM_NAME := Some (js "Anya Ganger") |}.

Definition world0 : World := {| hits := ∅; vendor_calls := []; console := [] |}.

Definition accepted : ClientResponse :=
  {| resp_statusCode := num_status 202;
     resp_headers := [(js "x-message-id", JStr (js "Zs8bXfCxQeWQ0mRJ7lLJ7A"))] |}.

Definition vendor_accepts (n : nat) (m : Msg) : SendResult := Resolved accepted.

Definition vendor_rejects (e : JSError) (n : nat) (m : Msg) : SendResult :=
  Rejected e.

(** A vendor error whose response body lists the errors. *)
Definition unauthorized : JSError :=
  {| err_message := JStr (js "Unauthorized");
     err_code := num_status 401;
     err_response :=
       JObj [(js "headers", JObj []);
             (js "body",
              JObj [(js "errors",
                     JArr [JObj [(js "message", JStr (js "Permission denied, wrong credentials"));
                                 (js "field", JNull);
                                 (js "help", JNull)]])])] |}.

(** A vendor error whose response body is a page of a gateway and lists
    nothing. *)
Definition gateway_page : JSValue :=
  JStr (js "<html><body><h1>502 Bad Gateway</h1></body></html>").

Definition bad_gateway : JSError :=
  {| err_message := JStr (js "Bad Gateway");
     err_code := num_status 502;
     err_response := JObj [(js "headers", JObj []); (js "body", gateway_page)] |}.

(** An error that is not a vendor response. *)
Definition socket_hang_up : JSError :=
  {| err_message := JStr (js "socket hang up");
     err_code := JUndefined;
     err_response := JUndefined |}.

Definition post_send_email (b : JSValue) : Request :=
  {| ip := js "203.0.113.7"; method := POST; path := js "/api/send-email";
     body := b |}.

(** The request of the curl example, lines 148-154. *)
Definition test_email : JSValue :=
  JObj [(js "to", JStr (js "samanthamdurrant@gmail.com"));
        (js "subject", JStr (js "Test Email"));
        (js "text", JStr (js "This is a test email from the sunglasses dashboard!"))].

Definition test_email_fields : Fields :=
  {| f_to := JStr (js "samanthamdurrant@gmail.com");
     f_subject := JStr (js "Test Email");
     f_text := JStr (js "This is a test email from the sunglasses dashboard!");
     f_html := JUndefined; f_fromEmail := JUndefined; f_fromName := JUndefined |}.

Definition no_recipient : JSValue :=
  JObj [(js "subject", JStr (js "Test Email")); (js "text", JStr (js "Hi"))].

Definition no_recipient_fields : Fields :=
  {| f_to := JUndefined; f_subject := JStr (js "Test Email");
     f_text := JStr (js "Hi");
     f_html := JUndefined; f_fromEmail := JUndefined; f_fromName := JUndefined |}.

Definition empty_subject : JSValue :=
  JObj [(js "to", JStr (js "samanthamdurrant@gmail.com"));
        (js "subject", JStr []); (js "text", JStr (js "Hi"))].

Definition empty_subject_fields : Fields :=
  {| f_to := JStr (js "samanthamdurrant@gmail.com"); f_subject := JStr [];
     f_text := JStr (js "Hi");
     f_html := JUndefined; f_fromEmail := JUndefined; f_fromName := JUndefined |}.

Definition get_health : Request :=
  {| ip := js "203.0.113.7"; method := GET; path := js "/api/health";
     body := JObj [] |}.

(** One delivery event as SendGrid posts it, already parsed by
    [express.json()]. *)
Definition event_batch : JSValue :=
  JArr [JObj [(js "email", JStr (js "samanthamdurrant@gmail.com"));
              (js "event", JStr (js "delivered"));
              (js "timestamp", JNum (num 1700000000));
              (js "sg_message_id", JStr (js "Zs8bXfCxQeWQ0mRJ7lLJ7A"))]].

Definition post_webhook (b : JSValue) : Request :=
  {| ip := js "198.51.100.9"; method := POST; path := js "/api/sendgrid-webhook";
     body := b |}.

(** A world in which the source of [get_health] has used up its
    send-email quota. *)
Definition exhausted : World :=
  {| hits := {[ js "203.0.113.7" := 250 ]}; vendor_calls := []; console := [] |}.

(** JSON text for a string without quotes, backslashes or control
    characters in it. *)
Definition quoted (s : string) : JSString := 34%N :: js s ++ [34%N].

(** The JSON text of one delivery event. *)
Definition delivered_json : JSString :=
  js "[{" ++ quoted "email" ++ js ":" ++ quoted "a@b.c" ++ js ","
  ++ quoted "event" ++ js ":" ++ quoted "delivered" ++ js ","
  ++ quoted "timestamp" ++ js ":1700000000}]".

(** A stand-in for the number printer where an executable one is needed. *)
Definition Number_toString_stub (n : JSNumber) : JSString := js "0".

(** The server as it starts. *)
Definition server0 : Server := {| world := world0; resets := ∅ |}.

(** A time of arrival, in milliseconds. *)
Definition t_first : Z := 1700000000000.

(** A request arriving from the source of [post_send_email]. *)
Definition arriving (m : Method) (p : string) (t : Z) (c : Content) : Incoming :=
  {| src_ip := js "203.0.113.7"; in_method := m; in_path := js p;
     arrival := t; content := c |}.

(** The JSON text of [test_email]. *)
Definition test_email_json : JSString :=
  js "{" ++ quoted "to" ++ js ":" ++ quoted "samanthamdurrant@gmail.com" ++ js ","
  ++ quoted "subject" ++ js ":" ++ quoted "Test Email" ++ js ","
  ++ quoted "text" ++ js ":"
  ++ quoted "This is a test email from the sunglasses dashboard!" ++ js "}".

(** The curl example of lines 148-154 as it arrives. *)
Definition post_test_email : Incoming :=
  arriving POST "/api/send-email" t_first (Json test_email_json).

(** The preflight a browser sends before a cross-origin POST. *)
Definition preflight : Incoming :=
  arriving OPTIONS "/api/send-email" t_first NoJson.

(** A POST without a body. *)
Definition post_without_body : Incoming :=
  arriving POST "/api/send-email" t_first NoJson.

(** A POST whose JSON text breaks off. *)
Definition post_malformed : Incoming :=
  arriving POST "/api/send-email" t_first (Json (js "{" ++ quoted "to" ++ js ":")).

(** The same route in capital letters and with a slash at the end. *)
Definition post_upper_case : Incoming :=
  arriving POST "/API/SEND-EMAIL/" t_first (Json test_email_json).

(** A vendor error with a response and a code that is no status. *)
Definition connection_reset : JSError :=
  {| err_message := JStr (js "read ECONNRESET");
     err_code := JStr (js "ECONNRESET");
     err_response := JObj [(js "headers", JObj []); (js "body", JObj [])] |}.

(** The rejection of the rate limiter, written out. *)
Definition too_many_requests : Response :=
  {| status := JNum (Dec false 429 0);
     payload := SendText (js "Too many email requests, please try again later.") |}.

(** ** Regular expressions and [validateEmail], lines 187-190 *)

Module RegExp.

(** The patterns the source needs: classes of code units, sequence,
    choice and repetition. *)
Inductive Regex :=
| Never
| Eps
| Class (p : N -> bool)
| Cat (r1 r2 : Regex)
| Alt (r1 r2 : Regex)
| Star (r : Regex).

(** [r+] *)
Definition plus (r : Regex) : Regex := Cat r (Star r).

(** A single given code unit. *)
Definition chr (a : ascii) : Regex := Class (fun c => N.eqb c (N_of_ascii a)).

(** The strings a pattern matches from its first to its last code
    unit. *)
Inductive lang : Regex -> JSString -> Prop :=
| lang_eps : lang Eps []
| lang_class p c : p c = true -> lang (Class p) [c]
| lang_cat r1 r2 s1 s2 :
    lang r1 s1 -> lang r2 s2 -> lang (Cat r1 r2) (s1 ++ s2)
| lang_alt_l r1 r2 s : lang r1 s -> lang (Alt r1 r2) s
| lang_alt_r r1 r2 s : lang r2 s -> lang (Alt r1 r2) s
| lang_star_nil r : lang (Star r) []
| lang_star_cons r s1 s2 :
    lang r s1 -> lang (Star r) s2 -> lang (Star r) (s1 ++ s2).

Fixpoint nullable (r : Regex) : bool :=
  match r with
  | Never => false
  | Eps => true
  | Class _ => false
  | Cat r1 r2 => nullable r1 && nullable r2
  | Alt r1 r2 => nullable r1 || nullable r2
  | Star _ => true
  end.

(** What is left to match after the code unit [c]. *)
Fixpoint deriv (c : N) (r : Regex) : Regex :=
  match r with
  | Never => Never
  | Eps => Never
  | Class p => if p c then Eps else Never
  | Cat r1 r2 =>
      if nullable r1 then Alt (Cat (deriv c r1) r2) (deriv c r2)
      else Cat (deriv c r1) r2
  | Alt r1 r2 => Alt (deriv c r1) (deriv c r2)
  | Star r1 => Cat (deriv c r1) (Star r1)
  end.

(** [/^r$/.test(s)]: the pattern, anchored at both ends and without
    flags, against a string. *)
Fixpoint test (r : Regex) (s : JSString) : bool :=
  match s with
  | [] => nullable r
  | c :: s' => test (deriv c r) s'
  end.

End RegExp.

(** The class [\s]: the white space and line terminators of
    ECMAScript. *)
Definition is_space (c : N) : bool :=
  (N.leb 9 c && N.leb c 13) || N.eqb c 32 || N.eqb c 160 || N.eqb c 5760
  || (N.leb 8192 c && N.leb c 8202) || N.eqb c 8232 || N.eqb c 8233
  || N.eqb c 8239 || N.eqb c 8287 || N.eqb c 12288 || N.eqb c 65279.

(** The class [[^\s@]]. *)
Definition not_space_at (c : N) : bool := negb (is_space c || N.eqb c 64).

(** [/^[^\s@]+@[^\s@]+\.[^\s@]+$/], line 188. *)
Definition emailRegex : RegExp.Regex :=
  RegExp.Cat (RegExp.plus (RegExp.Class not_space_at))
    (RegExp.Cat (RegExp.chr "@")
       (RegExp.Cat (RegExp.plus (RegExp.Class not_space_at))
          (RegExp.Cat (RegExp.chr ".")
             (RegExp.plus (RegExp.Class not_space_at))))).

(** ** [handleSendGridError], lines 162-184 *)

Definition sender_hint : JSString :=
  js "Invalid sender email - make sure it's verified in SendGrid".

Definition recipient_hint : JSString := js "Invalid recipient email address".

(** The [default] branch: [console.error('SendGrid error:', err.message)]. *)
Definition default_line (err : JSValue) : option (list JSValue) :=
  message ← get err (js "message");
  Some [JStr (js "SendGrid error:"); message].

(** The callback of [errors.forEach], lines 168-179: the arguments of the
    one [console.error] call it makes; [None] when reading [err.field]
    throws.  Like the names that [get] is used with elsewhere, [field] and
    [message] are defined on none of the prototypes of arrays, buffers,
    strings, numbers or booleans. *)
Definition error_line (err : JSValue) : option (list JSValue) :=
  field ← get err (js "field");
  match field with
  | JStr s =>
      if str_eqb s (js "from.email") then Some [JStr sender_hint]
      else if str_eqb s (js "personalizations.0.to") then Some [JStr recipient_hint]
      else default_line err
  | _ => default_line err
  end.

(** [errors.forEach] over an array: the lines written, and whether the
    loop ran to its end. *)
Fixpoint forEach_error (errs : list JSValue) : list (list JSValue) * bool :=
  match errs with
  | [] => ([], true)
  | err :: rest =>
      match error_line err with
      | Some line =>
          let (lines, ok) := forEach_error rest in (line :: lines, ok)
      | None => ([], false)
      end
  end.

Section Helpers.

Variable Number_toString : JSNumber -> JSString.

(** The number of bytes of a buffer, given its decoding; not modelled. *)
Variable Buffer_byteLength : JSString -> nat.

(** [validateEmail], lines 187-190: [test] converts its argument to a
    string first; [None] when that conversion throws. *)
Definition validateEmail (email : JSValue) : option bool :=
  option_map (RegExp.test emailRegex) (to_string Number_toString email).

(** [handleSendGridError]: the [console.error] calls it makes, each as
    its list of arguments, and the value it returns, [None] when it
    throws a TypeError.  Of the truthy values that [errors] can be, arrays
    and buffers have a [forEach]; a buffer calls back with each of its
    bytes, a number, on which [field] and [message] are undefined. *)
Definition handleSendGridError (error : JSError)
  : list (list JSValue) * option JSValue :=
  if truthy (err_response error) then
    match get (err_response error) (js "body") ≫= (fun b => get b (js "errors")) with
    | None => ([], None)
    | Some errors =>
        if truthy errors then
          match errors with
          | JArr errs =>
              let (lines, ok) := forEach_error errs in
              (lines, if ok then Some (err_message error) else None)
          | JBuffer text =>
              (replicate (Buffer_byteLength text)
                 [JStr (js "SendGrid error:"); JUndefined],
               Some (err_message error))
          | _ => ([], None)
          end
        else ([], Some (err_message error))
    end
  else ([], Some (err_message error)).

End Helpers.

(** ** Reading sequences of requests *)

(** The request passes the validation of the send-email handler. *)
Definition passes_validation (req : Request) : bool :=
  match destructure (body req) with
  | Some f => negb (missing_required f)
  | None => false
  end.

(** The request reaches the rate limiter and is counted for [src]. *)
Definition counted_for (src : JSString) (req : Request) : bool :=
  negb (method_eqb (method req) OPTIONS)
  && mounted_at (js "/api/send-email") (path req)
  && str_eqb (ip req) src.

Definition count_where {A} (p : A -> bool) (l : list A) : nat :=
  length (filter (fun x => p x = true) l).





(** The line the webhook logs for an event that is not [null]. *)
Definition event_log (event : JSValue) : LogEntry :=
  LogSendGridEvent
    (default JUndefined (get event (js "email")))
    (default JUndefined (get event (js "event")))
    (default JUndefined (get event (js "timestamp")))
    (default JUndefined (get event (js "sg_message_id"))).

(** A well-formed vendor error of the SDK, with two errors listed. *)
Definition two_errors_list : list JSValue :=
  [JObj [(js "message", JStr (js "The from address does not match a verified Sender Identity."));
         (js "field", JStr (js "from.email"))];
   JObj [(js "message", JStr (js "Does not contain a valid address."));
         (js "field", JStr (js "personalizations.0.to"))]].

Definition two_errors_body : JSValue := JObj [(js "errors", JArr two_errors_list)].

Definition two_errors : JSError :=
  {| err_message := JStr (js "Bad Request");
     err_code := num_status 400;
     err_response := JObj [(js "headers", JObj []); (js "body", two_errors_body)] |}.

(** A vendor error whose response has no body. *)
Definition bodyless_error : JSError :=
  {| err_message := JStr (js "Internal Server Error");
     err_code := num_status 500;
     err_response := JObj [(js "headers", JObj [])] |}.

(** The events of [delivered_json]. *)
Definition delivered_events : list JSValue :=
  [JObj [(js "email", JStr (js "a@b.c"));
         (js "event", JStr (js "delivered"));
         (js "timestamp", JNum (num 1700000000))]].

Definition Buffer_byteLength_stub (text : JSString) : nat := length text.

(** A non-empty run of code units that are neither white space nor the
    at sign. *)
Definition email_part (s : JSString) : Prop :=
  s <> [] /\ Forall (fun c => not_space_at c = true) s.

(** ** JavaScript values and [JSON.parse] at work *)

Example zero_is_falsy : truthy (JNum (num 0)) = false.
Proof. reflexivity. Qed.

Example underflow_is_falsy : truthy (JNum (Dec false 1 (-400))) = false.
Proof. vm_compute. reflexivity. Qed.

Example least_double_is_truthy : truthy (JNum (Dec false 5 (-324))) = true.
Proof. vm_compute. reflexivity. Qed.

Example empty_array_is_truthy : truthy (JArr []) = true.
Proof. reflexivity. Qed.

Example later_member_wins :
  get (JObj [(js "to", JStr (js "a")); (js "to", JStr (js "b"))]) (js "to")
  = Some (JStr (js "b")).
Proof. reflexivity. Qed.

Example parse_empty_array : JSON.parse (js "[]") = Some (JArr []).
Proof. reflexivity. Qed.

Example parse_number : JSON.parse (js " -12.50e3 ") = Some (JNum (Dec true 1250 1)).
Proof. reflexivity. Qed.

Example parse_escapes :
  JSON.parse (quoted "a\u0041\n") = Some (JStr [97; 65; 10]%N).
Proof. reflexivity. Qed.

Example parse_delivered :
  JSON.parse delivered_json
  = Some (JArr [JObj [(js "email", JStr (js "a@b.c"));
                      (js "event", JStr (js "delivered"));
                      (js "timestamp", JNum (num 1700000000))]]).
Proof. reflexivity. Qed.

Example parse_rejects_empty_text : JSON.parse [] = None.
Proof. reflexivity. Qed.

Example parse_rejects_trailing_comma : JSON.parse (js "[1,]") = None.
Proof. reflexivity. Qed.

Example parse_rejects_leading_zero : JSON.parse (js "[01]") = None.
Proof. reflexivity. Qed.

Example parse_rejects_two_values : JSON.parse (js "[] []") = None.
Proof. reflexivity. Qed.

Example parse_rejects_unclosed : JSON.parse (js "[{}") = None.
Proof. reflexivity. Qed.

Example event_batch_prints_as_object :
  toString Number_toString_stub event_batch = Some (js "[object Object]").
Proof. reflexivity. Qed.

(** ** Properties of the send-email handler *)

Lemma truthy_undefined : truthy JUndefined = false.
Proof. reflexivity. Qed.

Lemma truthy_empty_string : truthy (JStr []) = false.
Proof. reflexivity. Qed.

Lemma js_or_falsy (a b : JSValue) : truthy a = false -> js_or a b = b.
Proof. intros H. unfold js_or. now rewrite H. Qed.

Lemma js_or_truthy (a b : JSValue) : truthy a = true -> js_or a b = a.
Proof. intros H. unfold js_or. now rewrite H. Qed.

(** The test of line 44 rejects exactly the requests with a falsy
    recipient, a falsy subject, or two falsy bodies. *)
Lemma missing_required_iff (f : Fields) :
  missing_required f = true <->
  truthy (f_to f) = false \/ truthy (f_subject f) = false
  \/ (truthy (f_text f) = false /\ truthy (f_html f) = false).
Proof.
  unfold missing_required.
  destruct (truthy (f_to f)), (truthy (f_subject f)),
    (truthy (f_text f)), (truthy (f_html f)); simpl; intuition congruence.
Qed.

Lemma valid_fields_truthy (f : Fields) :
  missing_required f = false ->
  truthy (f_to f) = true /\ truthy (f_subject f) = true
  /\ (truthy (f_text f) = true \/ truthy (f_html f) = true).
Proof.
  unfold missing_required.
  destruct (truthy (f_to f)), (truthy (f_subject f)),
    (truthy (f_text f)), (truthy (f_html f)); simpl; intuition congruence.
Qed.

(** A status that [res.status] accepts is not zero: it is truthy. *)
Lemma valid_status_truthy (code : JSValue) :
  valid_status code = true -> truthy code = true.
Proof.
  destruct code as [| | |[|[|] m e]| | | |]; try discriminate.
  unfold valid_status, is_status_number, truthy, rounds_to_zero.
  intros H. apply negb_true_iff, orb_false_iff.
  assert (Hpow : forall z, (0 < 10 ^ z \/ z < 0)%Z).
  { intros z. destruct (Z.ltb_spec z 0); [now right | left].
    now apply Z.pow_pos_nonneg. }
  destruct (Z.leb_spec 0 e) as [He|He].
  - apply andb_true_iff in H as [H _]. apply Z.leb_le in H.
    split.
    + apply N.eqb_neq. intros ->. cbn in H. lia.
    + apply andb_false_iff. left. apply Z.ltb_ge. exact He.
  - apply andb_true_iff in H as [H _]. apply andb_true_iff in H as [H _].
    apply Z.leb_le in H.
    set (d := (10 ^ (- e))%Z) in *.
    assert (Hd : (0 < d)%Z) by (apply Z.pow_pos_nonneg; lia).
    pose proof (Z.mul_div_le (2 * Z.of_N m + d) (2 * d) (ltac:(lia))) as Hk.
    assert (Hm : (d < Z.of_N m)%Z) by nia.
    split.
    + apply N.eqb_neq. intros ->. cbn in Hm. lia.
    + apply andb_false_iff. right. apply Z.leb_gt.
      assert (Hp : (0 < 2 ^ 1075)%Z) by (apply Z.pow_pos_nonneg; lia).
      nia.
Qed.

(** For an error with a status code, or with none, the status passed to
    [res.status] is accepted, and is the code, or 500. *)
Lemma status_code_or_500 (e : JSError) :
  has_status_code_or_none e ->
  valid_status (js_or (err_code e) (num_status 500)) = true
  /\ js_or (err_code e) (num_status 500)
     = match err_code e with
       | JUndefined => JNum (Dec false 500 0)
       | code => code
       end.
Proof.
  intros [Hc|Hc].
  - rewrite Hc. split; reflexivity.
  - rewrite (js_or_truthy _ _ (valid_status_truthy _ Hc)). split; [exact Hc|].
    destruct (err_code e); try reflexivity; discriminate Hc.
Qed.

Section SendEmail.

Variable env : Env.
Variable sgMail_send : nat -> Msg -> SendResult.

(** A request that the validation rejects is answered on the spot, and
    nothing else happens. *)
Lemma rejected_on_validation (req : Request) (w : World) (f : Fields) :
  destructure (body req) = Some f ->
  missing_required f = true ->
  send_email_handler env sgMail_send req w
  = (Responded missing_fields_response, w).
Proof.
  intros Hd Hm. unfold send_email_handler. now rewrite Hd, Hm.
Qed.

(** A request that passes validation reaches the vendor. *)
Lemma accepted_on_validation (req : Request) (w : World) (f : Fields) :
  valid_request req f ->
  send_email_handler env sgMail_send req w
  = match sgMail_send (length (vendor_calls w)) (build_msg env f) with
    | Resolved response =>
        (Responded (success_response (header response (js "x-message-id"))),
         log (LogEmailSent (f_to f) (f_subject f)
                (header response (js "x-message-id")))
           (record_call (build_msg env f) w))
    | Rejected error => catch_block error (record_call (build_msg env f) w)
    end.
Proof.
  intros [Hd Hm]. unfold send_email_handler. now rewrite Hd, Hm.
Qed.

Lemma catch_block_calls (e : JSError) (w : World) :
  vendor_calls (catch_block e w).2 = vendor_calls w.
Proof.
  unfold catch_block.
  destruct (truthy (err_response e)); [|reflexivity].
  cbn zeta. destruct (valid_status _); [|reflexivity].
  destruct (get (err_response e) (js "body") ≫= _); reflexivity.
Qed.

(** The validation of a body that line 41 can destructure: a request
    whose recipient is missing, whose subject is missing, or whose text
    and html bodies are both missing is answered with status 400 and the
    fixed missing-fields message, whatever the other fields are. *)
Lemma missing_fields_answered_400 (req : Request) (w : World) (f : Fields) :
  destructure (body req) = Some f ->
  f_to f = JUndefined \/ f_subject f = JUndefined
  \/ (f_text f = JUndefined /\ f_html f = JUndefined) ->
  (send_email_handler env sgMail_send req w).1
  = Responded
      {| status := JNum (Dec false 400 0);
         payload := SendJson
           (JObj [(js "error",
                   JStr (js "Missing required fields: to, subject, and text/html"))]) |}.
Proof.
  intros Hd Hmiss.
  rewrite (rejected_on_validation req w f Hd); [reflexivity|].
  apply missing_required_iff.
  destruct Hmiss as [-> | [-> | [-> ->]]]; auto.
Qed.

(** C9: a send-email request that fails the validation causes no call to
    the vendor: the handler returns before the payload is built, and
    leaves the world as it found it. *)
Theorem rejected_request_makes_no_vendor_call
    (req : Request) (w : World) (f : Fields) :
  destructure (body req) = Some f ->
  missing_required f = true ->
  vendor_calls (send_email_handler env sgMail_send req w).2 = vendor_calls w
  /\ (send_email_handler env sgMail_send req w).2 = w.
Proof.
  intros Hd Hm. now rewrite (rejected_on_validation req w f Hd Hm).
Qed.

(** C10: the validation tests truthiness, not presence: a request in which
    [to] or [subject] is the empty string, or [text] and [html] are both
    empty strings, is answered with status 400 and the missing-fields
    message although the fields are present. *)
Theorem empty_strings_answered_400 (req : Request) (w : World) (f : Fields) :
  destructure (body req) = Some f ->
  f_to f = JStr [] \/ f_subject f = JStr []
  \/ (f_text f = JStr [] /\ f_html f = JStr []) ->
  (send_email_handler env sgMail_send req w).1
  = Responded
      {| status := JNum (Dec false 400 0);
         payload := SendJson
           (JObj [(js "error",
                   JStr (js "Missing required fields: to, subject, and text/html"))]) |}.
Proof.
  intros Hd Hempty.
  rewrite (rejected_on_validation req w f Hd); [reflexivity|].
  apply missing_required_iff.
  destruct Hempty as [-> | [-> | [-> ->]]]; auto.
Qed.

(** The sender when the request names none. *)
Lemma default_sender (o : option JSString) (builtin : JSString) :
  js_or (js_or JUndefined (env_var o)) (JStr builtin)
  = JStr (configured_or o builtin).
Proof.
  rewrite (js_or_falsy JUndefined) by reflexivity.
  destruct o as [[|c s]|]; simpl.
  - now rewrite js_or_falsy.
  - now rewrite js_or_truthy.
  - now rewrite js_or_falsy.
Qed.

Lemma vendor_called_once (req : Request) (w : World) (f : Fields) :
  valid_request req f ->
  vendor_calls (send_email_handler env sgMail_send req w).2
  = vendor_calls w ++ [build_msg env f].
Proof.
  intros Hv. rewrite (accepted_on_validation req w f Hv).
  destruct (sgMail_send _ _); [reflexivity|].
  now rewrite catch_block_calls.
Qed.

(** C2, amended: a valid send-email request makes the handler call the
    vendor exactly once; when the request gives no [fromEmail]
    ([fromName]) the sender email (name) is the environment variable if
    that is set to a non-empty string and the literal built into the
    source otherwise; when the request gives no [html] the HTML body is
    the text body. *)
Theorem valid_request_calls_vendor_once
    (req : Request) (w : World) (f : Fields) :
  valid_request req f ->
  exists msg,
    vendor_calls (send_email_handler env sgMail_send req w).2
      = vendor_calls w ++ [msg]
    /\ (f_fromEmail f = JUndefined ->
        msg_from_email msg
        = JStr (configured_or (FROM_EMAIL env)
                  (js "anya.sunglassretailer@gmail.com")))
    /\ (f_fromName f = JUndefined ->
        msg_from_name msg
        = JStr (configured_or (FROM_NAME env) (js "Anya Ganger")))
    /\ (f_html f = JUndefined -> msg_html msg = f_text f).
Proof.
  intros Hv. exists (build_msg env f). split; [now apply vendor_called_once|].
  unfold build_msg; simpl. repeat split; intros ->.
  - now apply default_sender.
  - now apply default_sender.
  - now apply js_or_falsy.
Qed.

(** C4: when the vendor call of a valid request succeeds, the handler
    answers 200 with [success: true] and with [messageId] equal to the
    [x-message-id] header of the vendor response. *)
Theorem vendor_success_answered_200
    (req : Request) (w : World) (f : Fields) (response : ClientResponse) :
  valid_request req f ->
  sgMail_send (length (vendor_calls w)) (build_msg env f) = Resolved response ->
  (send_email_handler env sgMail_send req w).1
  = Responded
      {| status := JNum (Dec false 200 0);
         payload := SendJson
           (JObj [(js "success", JBool true);
                  (js "messageId",
                   default JUndefined
                     (lookup_member (js "x-message-id") (resp_headers response)));
                  (js "message", JStr (js "Email sent successfully"))]) |}.
Proof.
  intros Hv Hs. now rewrite (accepted_on_validation req w f Hv), Hs.
Qed.

(** C3, amended: when the vendor call of a valid request throws an error
    that carries a response body, and whose code is a status code (an
    integer from 100 to 999) or absent, the handler answers with the
    vendor's status code, or with 500 when that code is absent, and with
    [details] equal to the vendor's error list if that is truthy and to
    the message of the error otherwise. *)
Theorem vendor_api_error_passed_through
    (req : Request) (w : World) (f : Fields) (e : JSError) (b : JSValue) :
  valid_request req f ->
  sgMail_send (length (vendor_calls w)) (build_msg env f) = Rejected e ->
  carries_response_body e b ->
  has_status_code_or_none e ->
  (send_email_handler env sgMail_send req w).1
  = Responded
      {| status := match err_code e with
                   | JUndefined => JNum (Dec false 500 0)
                   | code => code
                   end;
         payload := SendJson
           (JObj [(js "error", JStr (js "SendGrid API error"));
                  (js "details",
                   if truthy (error_list b) then error_list b
                   else err_message e)]) |}.
Proof.
  intros Hv Hs (Hr & Hb & Hn) Hcode.
  rewrite (accepted_on_validation req w f Hv), Hs.
  unfold catch_block. rewrite Hr, Hb. cbn zeta.
  destruct (status_code_or_500 e Hcode) as [Hvalid Hstatus].
  rewrite Hvalid, Hstatus.
  unfold error_list.
  destruct b; try discriminate Hn; reflexivity.
Qed.

(** C6, amended: when the vendor call of a valid request throws an error
    that carries no response, the handler answers 500 with error "Server
    error" and with [details] equal to the message of the error. *)
Theorem plain_error_answered_500
    (req : Request) (w : World) (f : Fields) (e : JSError) :
  valid_request req f ->
  sgMail_send (length (vendor_calls w)) (build_msg env f) = Rejected e ->
  truthy (err_response e) = false ->
  (send_email_handler env sgMail_send req w).1
  = Responded
      {| status := JNum (Dec false 500 0);
         payload := SendJson
           (JObj [(js "error", JStr (js "Server error"));
                  (js "details", err_message e)]) |}.
Proof.
  intros Hv Hs Hr.
  rewrite (accepted_on_validation req w f Hv), Hs.
  unfold catch_block. now rewrite Hr.
Qed.

(** A vendor error whose response has no body makes the [catch] block
    itself throw: no answer is sent. *)
Lemma response_without_body_throws
    (req : Request) (w : World) (f : Fields) (e : JSError) (b : JSValue) :
  valid_request req f ->
  sgMail_send (length (vendor_calls w)) (build_msg env f) = Rejected e ->
  truthy (err_response e) = true ->
  get (err_response e) (js "body") = Some b ->
  nullish b = true ->
  exists ex, (send_email_handler env sgMail_send req w).1 = Threw ex.
Proof.
  intros Hv Hs Hr Hb Hn.
  rewrite (accepted_on_validation req w f Hv), Hs.
  unfold catch_block. rewrite Hr, Hb. cbn zeta.
  destruct (valid_status _); [|now exists InvalidStatus].
  exists TypeError. destruct b; try discriminate Hn; reflexivity.
Qed.

(** When no parser has set [req.body], the destructuring of line 41
    throws inside the [try], and the [catch] block answers 500. *)
Lemma undefined_body_answered_500 (req : Request) (w : World) :
  body req = JUndefined ->
  (send_email_handler env sgMail_send req w).1
  = Responded
      {| status := JNum (Dec false 500 0);
         payload := SendJson
           (JObj [(js "error", JStr (js "Server error"));
                  (js "details", err_message (destructure_error JUndefined))]) |}.
Proof.
  intros Hb. unfold send_email_handler. now rewrite Hb.
Qed.

(** The handler answers with JSON only: never with the text of the rate
    limiter. *)
Lemma handler_never_sends_text (req : Request) (w : World) (r : Response) :
  (send_email_handler env sgMail_send req w).1 = Responded r ->
  exists v, payload r = SendJson v.
Proof.
  assert (Hcatch : forall e w',
             (catch_block e w').1 = Responded r -> exists v, payload r = SendJson v).
  { intros e w'. unfold catch_block.
    destruct (truthy (err_response e)).
    - cbn zeta. destruct (valid_status _); [|discriminate].
      destruct (get (err_response e) (js "body") ≫= _); [|discriminate].
      intros [= <-]. eexists. reflexivity.
    - intros [= <-]. eexists. reflexivity. }
  unfold send_email_handler.
  destruct (destructure (body req)) as [f|]; [|apply Hcatch].
  destruct (missing_required f).
  - intros [= <-]. eexists. reflexivity.
  - destruct (sgMail_send _ _); [|apply Hcatch].
    intros [= <-]. eexists. reflexivity.
Qed.

End SendEmail.

Lemma missing_fields_answered_400_witness :
  destructure (body (post_send_email no_recipient)) = Some no_recipient_fields
  /\ (send_email_handler env_unset vendor_accepts
        (post_send_email no_recipient) world0).1
     = Responded
         {| status := JNum (Dec false 400 0);
            payload := SendJson
              (JObj [(js "error",
                      JStr (js "Missing required fields: to, subject, and text/html"))]) |}.
Proof.
  split; [reflexivity|].
  apply (missing_fields_answered_400 env_unset vendor_accepts
           (post_send_email no_recipient) world0 no_recipient_fields).
  - reflexivity.
  - left. reflexivity.
Defined.

Lemma test_email_valid :
  valid_request (post_send_email test_email) test_email_fields.
Proof. split; reflexivity. Qed.

(** C2, as stated, fails: with [FROM_EMAIL] unset the payload carries the
    built-in address, not a value of the process configuration. *)
Lemma sender_not_read_from_unset_env :
  ~ sender_read_from_env env_unset vendor_accepts
      (post_send_email test_email) world0.
Proof.
  intros H.
  destruct (H test_email_fields test_email_valid) as (msg & Hcalls & Hemail & _).
  rewrite (vendor_called_once _ _ _ _ _ test_email_valid) in Hcalls.
  apply app_inv_head in Hcalls. injection Hcalls as <-.
  specialize (Hemail eq_refl). discriminate Hemail.
Qed.

Lemma valid_request_calls_vendor_once_witness :
  valid_request (post_send_email test_email) test_email_fields
  /\ exists msg,
       vendor_calls (send_email_handler env_configured vendor_accepts
                       (post_send_email test_email) world0).2
       = vendor_calls world0 ++ [msg]
       /\ (f_fromEmail test_email_fields = JUndefined ->
           msg_from_email msg
           = JStr (configured_or (FROM_EMAIL env_configured)
                     (js "anya.sunglassretailer@gmail.com")))
       /\ (f_fromName test_email_fields = JUndefined ->
           msg_from_name msg
           = JStr (configured_or (FROM_NAME env_configured) (js "Anya Ganger")))
       /\ (f_html test_email_fields = JUndefined ->
           msg_html msg = f_text test_email_fields).
Proof.
  split; [split; reflexivity|].
  apply (valid_request_calls_vendor_once env_configured vendor_accepts
           (post_send_email test_email) world0 test_email_fields).
  split; reflexivity.
Defined.

(** C3, as stated, fails: the body of a 502 from a gateway lists no
    errors, and [details] is then the message of the error, "Bad
    Gateway". *)
Lemma details_not_always_error_list :
  ~ details_are_error_list env_unset (vendor_rejects bad_gateway)
      (post_send_email test_email) world0.
Proof.
  intros H.
  specialize (H test_email_fields bad_gateway gateway_page test_email_valid eq_refl).
  assert (Hbody : carries_response_body bad_gateway gateway_page)
    by (repeat split).
  specialize (H Hbody). vm_compute in H. discriminate H.
Qed.

Lemma vendor_api_error_passed_through_witness :
  carries_response_body unauthorized
    (JObj [(js "errors",
            JArr [JObj [(js "message", JStr (js "Permission denied, wrong credentials"));
                        (js "field", JNull);
                        (js "help", JNull)]])])
  /\ (send_email_handler env_unset (vendor_rejects unauthorized)
        (post_send_email test_email) world0).1
     = Responded
         {| status := JNum (Dec false 401 0);
            payload := SendJson
              (JObj [(js "error", JStr (js "SendGrid API error"));
                     (js "details",
                      JArr [JObj [(js "message", JStr (js "Permission denied, wrong credentials"));
                                  (js "field", JNull);
                                  (js "help", JNull)]])]) |}.
Proof.
  assert (Hbody : carries_response_body unauthorized
            (JObj [(js "errors",
                    JArr [JObj [(js "message", JStr (js "Permission denied, wrong credentials"));
                                (js "field", JNull);
                                (js "help", JNull)]])]))
    by (repeat split).
  split; [exact Hbody|].
  exact (vendor_api_error_passed_through env_unset (vendor_rejects unauthorized)
           (post_send_email test_email) world0 test_email_fields unauthorized _
           (conj eq_refl eq_refl) eq_refl Hbody (or_intror eq_refl)).
Defined.

Lemma vendor_success_answered_200_witness :
  (send_email_handler env_unset vendor_accepts
     (post_send_email test_email) world0).1
  = Responded
      {| status := JNum (Dec false 200 0);
         payload := SendJson
           (JObj [(js "success", JBool true);
                  (js "messageId", JStr (js "Zs8bXfCxQeWQ0mRJ7lLJ7A"));
                  (js "message", JStr (js "Email sent successfully"))]) |}.
Proof.
  exact (vendor_success_answered_200 env_unset vendor_accepts
           (post_send_email test_email) world0 test_email_fields accepted
           (conj eq_refl eq_refl) eq_refl).
Defined.

Lemma plain_error_answered_500_witness :
  truthy (err_response socket_hang_up) = false
  /\ (send_email_handler env_unset (vendor_rejects socket_hang_up)
        (post_send_email test_email) world0).1
     = Responded
         {| status := JNum (Dec false 500 0);
            payload := SendJson
              (JObj [(js "error", JStr (js "Server error"));
                     (js "details", JStr (js "socket hang up"))]) |}.
Proof.
  split; [reflexivity|].
  exact (plain_error_answered_500 env_unset (vendor_rejects socket_hang_up)
           (post_send_email test_email) world0 test_email_fields socket_hang_up
           (conj eq_refl eq_refl) eq_refl eq_refl).
Defined.

(** C6, as stated, fails: an error whose response has no body carries no
    response body, yet it is not answered with 500 "Server error": the
    [catch] block takes its first branch and throws at line 88, where it
    reads the error list of that body. *)
Lemma response_without_body_not_answered_500 :
  ~ no_body_answered_500 env_unset (vendor_rejects bodyless_error)
      (post_send_email test_email) world0.
Proof.
  intros H.
  assert (Hbody : carries_no_response_body bodyless_error).
  { right. exists JUndefined. split; reflexivity. }
  specialize (H test_email_fields bodyless_error test_email_valid eq_refl Hbody).
  vm_compute in H. discriminate H.
Qed.

Lemma rejected_request_makes_no_vendor_call_witness :
  missing_required no_recipient_fields = true
  /\ vendor_calls (send_email_handler env_unset vendor_accepts
                     (post_send_email no_recipient) world0).2
     = vendor_calls world0
  /\ (send_email_handler env_unset vendor_accepts
        (post_send_email no_recipient) world0).2 = world0.
Proof.
  split; [reflexivity|].
  exact (rejected_request_makes_no_vendor_call env_unset vendor_accepts
           (post_send_email no_recipient) world0 no_recipient_fields
           eq_refl eq_refl).
Defined.

Lemma empty_strings_answered_400_witness :
  get empty_subject (js "subject") = Some (JStr [])
  /\ (send_email_handler env_unset vendor_accepts
        (post_send_email empty_subject) world0).1
     = Responded
         {| status := JNum (Dec false 400 0);
            payload := SendJson
              (JObj [(js "error",
                      JStr (js "Missing required fields: to, subject, and text/html"))]) |}.
Proof.
  split; [reflexivity|].
  apply (empty_strings_answered_400 env_unset vendor_accepts
           (post_send_email empty_subject) world0 empty_subject_fields).
  - reflexivity.
  - right. left. reflexivity.
Defined.

(** ** The rate limiter in front of the send-email route *)

Section RateLimit.

Variable env : Env.
Variable sgMail_send : nat -> Msg -> SendResult.
Variable Number_toString : JSNumber -> JSString.

(** The send-email handler neither reads nor writes the rate-limit
    store. *)
Lemma catch_block_set_hits (store : gmap JSString nat) (e : JSError) (w : World) :
  catch_block e (set_hits store w)
  = ((catch_block e w).1, set_hits store (catch_block e w).2).
Proof.
  unfold catch_block.
  destruct (truthy (err_response e)); [|reflexivity].
  cbn zeta. destruct (valid_status _); [|reflexivity].
  destruct (get (err_response e) (js "body") ≫= _); reflexivity.
Qed.

Lemma send_email_handler_set_hits
    (store : gmap JSString nat) (req : Request) (w : World) :
  send_email_handler env sgMail_send req (set_hits store w)
  = ((send_email_handler env sgMail_send req w).1,
     set_hits store (send_email_handler env sgMail_send req w).2).
Proof.
  unfold send_email_handler.
  destruct (destructure (body req)) as [f|]; [|apply catch_block_set_hits].
  destruct (missing_required f); [reflexivity|].
  simpl. destruct (sgMail_send _ _); [reflexivity|].
  apply (catch_block_set_hits store error (record_call (build_msg env f) w)).
Qed.

Lemma serve_handler_set_hits (store : gmap JSString nat) (reqs : list Request) :
  forall w,
    (serve (send_email_handler env sgMail_send) reqs (set_hits store w)).1
    = (serve (send_email_handler env sgMail_send) reqs w).1.
Proof.
  induction reqs as [|r rest IH]; intros w; [reflexivity|].
  simpl. rewrite send_email_handler_set_hits.
  destruct (send_email_handler env sgMail_send r w) as [o w1]. simpl.
  specialize (IH w1).
  destruct (serve _ rest (set_hits store w1)) as [os w2].
  destruct (serve _ rest w1) as [os' w2'].
  simpl in *. now subst.
Qed.

(** One request to the send-email route, seen from the counter of its
    source. *)
Lemma app_send_email (req : Request) (w : World) :
  method req = POST ->
  path req = js "/api/send-email" ->
  app env sgMail_send Number_toString req w
  = let n := S (default 0 (hits w !! ip req)) in
    let w1 := set_hits (<[ip req := n]> (hits w)) w in
    if n <=? 100 then send_email_handler env sgMail_send req w1
    else (Responded too_many_requests, w1).
Proof.
  intros Hm Hp. unfold app, route, rate_limit. rewrite Hm, Hp. reflexivity.
Qed.

Lemma serve_counted (src : JSString) (reqs : list Request) :
  forall (w : World) (c : nat),
    Forall (send_email_from src) reqs ->
    default 0 (hits w !! src) = c ->
    (serve (app env sgMail_send Number_toString) reqs w).1
    = (serve (send_email_handler env sgMail_send) (take (100 - c) reqs) w).1
      ++ replicate (length reqs - (100 - c)) (Responded too_many_requests).
Proof.
  induction reqs as [|r rest IH]; intros w c Hall Hc.
  - now rewrite take_nil.
  - apply Forall_cons in Hall as [(Hip & Hm & Hp) Hall].
    cbn [serve]. rewrite (app_send_email r w Hm Hp), Hip, Hc. cbn zeta.
    set (store := <[src := S c]> (hits w)).
    assert (Hnext : forall w', default 0 (hits (set_hits store w') !! src) = S c).
    { intros w'. unfold store. simpl. now rewrite lookup_insert_eq. }
    destruct (Nat.leb_spec (S c) 100) as [Hle|Hgt].
    + rewrite send_email_handler_set_hits.
      destruct (send_email_handler env sgMail_send r w) as [o w1] eqn:Hh.
      cbn [fst snd].
      specialize (IH (set_hits store w1) (S c) Hall (Hnext w1)).
      rewrite serve_handler_set_hits in IH.
      destruct (serve (app _ _ _) rest (set_hits store w1)) as [os w2].
      cbn [fst] in *. rewrite IH.
      replace (100 - c) with (S (100 - S c)) by lia.
      cbn [take serve length]. rewrite Hh.
      destruct (serve (send_email_handler _ _) _ w1) as [os' w2'].
      reflexivity.
    + specialize (IH (set_hits store w) (S c) Hall (Hnext w)).
      destruct (serve (app _ _ _) rest (set_hits store w)) as [os w2].
      cbn [fst] in *. rewrite IH.
      replace (100 - c) with 0 by lia. replace (100 - S c) with 0 by lia.
      cbn [take serve length fst app]. rewrite !Nat.sub_0_r. reflexivity.
Qed.

Lemma serve_length (handler : Request -> World -> Outcome * World)
    (reqs : list Request) :
  forall w, length (serve handler reqs w).1 = length reqs.
Proof.
  induction reqs as [|r rest IH]; intros w; [reflexivity|].
  cbn [serve]. destruct (handler r w) as [o w1].
  specialize (IH w1). destruct (serve handler rest w1) as [os w2].
  cbn [fst length] in *. now rewrite IH.
Qed.

Lemma serve_take (handler : Request -> World -> Outcome * World)
    (n : nat) (reqs : list Request) :
  forall w, (serve handler (take n reqs) w).1 = take n (serve handler reqs w).1.
Proof.
  revert n. induction reqs as [|r rest IH]; intros n w.
  - rewrite take_nil. cbn [serve fst]. now rewrite take_nil.
  - destruct n as [|n]; [reflexivity|].
    cbn [take serve]. destruct (handler r w) as [o w1].
    specialize (IH n w1).
    destruct (serve handler (take n rest) w1) as [os w2].
    destruct (serve handler rest w1) as [os' w2'].
    cbn [fst take] in *. now rewrite IH.
Qed.

(** Seen one request at a time: up to the 100th, a request is answered
    as it would be without the limiter... *)
Lemma within_limit_handled
    (src : JSString) (reqs : list Request) (w : World) (k : nat) :
  Forall (send_email_from src) reqs ->
  hits w !! src = None ->
  k < 100 ->
  (serve (app env sgMail_send Number_toString) reqs w).1 !! k
  = (serve (send_email_handler env sgMail_send) reqs w).1 !! k.
Proof.
  intros Hall Hfresh Hk.
  rewrite (serve_counted src reqs w 0 Hall) by now rewrite Hfresh.
  rewrite serve_take. change (100 - 0) with 100.
  destruct (decide (k < length reqs)) as [Hlt|Hge].
  - rewrite lookup_app_l.
    + now apply lookup_take_lt.
    + rewrite length_take, serve_length. lia.
  - rewrite !(proj2 (lookup_ge_None _ _)); [reflexivity| |].
    + rewrite serve_length. lia.
    + rewrite length_app, length_take, serve_length, length_replicate. lia.
Qed.

(** ... and from the 101st on, it is rejected. *)
Lemma beyond_limit_rejected
    (src : JSString) (reqs : list Request) (w : World) (k : nat) :
  Forall (send_email_from src) reqs ->
  hits w !! src = None ->
  100 <= k < length reqs ->
  (serve (app env sgMail_send Number_toString) reqs w).1 !! k
  = Some (Responded too_many_requests).
Proof.
  intros Hall Hfresh Hk.
  rewrite (serve_counted src reqs w 0 Hall) by now rewrite Hfresh.
  change (100 - 0) with 100.
  rewrite lookup_app_r; rewrite serve_length, length_take; [|lia].
  apply lookup_replicate_2. lia.
Qed.

(** Seen as a whole, for POSTs of /api/send-email with parsed bodies that
    one source address sends within its current window: the first 100
    are processed by the send-email handler, and every request from the
    101st on is answered with the fixed rate-limit message instead. *)
Lemma rate_limit_100_per_window
    (src : JSString) (reqs : list Request) (w : World) :
  Forall (send_email_from src) reqs ->
  hits w !! src = None ->
  (serve (app env sgMail_send Number_toString) reqs w).1
  = (serve (send_email_handler env sgMail_send) (take 100 reqs) w).1
    ++ replicate (length reqs - 100)
         (Responded
            {| status := JNum (Dec false 429 0);
               payload := SendText
                 (js "Too many email requests, please try again later.") |}).
Proof.
  intros Hall Hfresh.
  apply (serve_counted src reqs w 0 Hall). now rewrite Hfresh.
Qed.

(** C8: a GET of /api/health is answered with status 200 and the body
    [{status: "OK", message: "Backend is running"}], whatever the state
    left by earlier requests, and leaves that state as it is. *)
Theorem health_always_ok (req : Request) (w : World) :
  method req = GET ->
  path req = js "/api/health" ->
  app env sgMail_send Number_toString req w
  = (Responded
       {| status := JNum (Dec false 200 0);
          payload := SendJson
            (JObj [(js "status", JStr (js "OK"));
                   (js "message", JStr (js "Backend is running"))]) |},
     w).
Proof.
  intros Hm Hp. unfold app, route. rewrite Hm, Hp. reflexivity.
Qed.

End RateLimit.

Lemma rate_limit_100_per_window_witness :
  Forall (send_email_from (js "203.0.113.7"))
    (replicate 101 (post_send_email test_email))
  /\ hits world0 !! js "203.0.113.7" = None
  /\ (serve (app env_unset vendor_accepts Number_toString_stub)
        (replicate 101 (post_send_email test_email)) world0).1
     = replicate 100
         (Responded
            {| status := JNum (Dec false 200 0);
               payload := SendJson
                 (JObj [(js "success", JBool true);
                        (js "messageId", JStr (js "Zs8bXfCxQeWQ0mRJ7lLJ7A"));
                        (js "message", JStr (js "Email sent successfully"))]) |})
       ++ [Responded
             {| status := JNum (Dec false 429 0);
                payload := SendText
                  (js "Too many email requests, please try again later.") |}].
Proof.
  assert (Hall : Forall (send_email_from (js "203.0.113.7"))
                   (replicate 101 (post_send_email test_email)))
    by (repeat constructor).
  assert (Hfresh : hits world0 !! js "203.0.113.7" = None) by reflexivity.
  split; [exact Hall|]. split; [exact Hfresh|].
  rewrite (rate_limit_100_per_window env_unset vendor_accepts
             Number_toString_stub (js "203.0.113.7")
             (replicate 101 (post_send_email test_email)) world0 Hall Hfresh).
  vm_compute. reflexivity.
Defined.

Lemma health_always_ok_witness :
  hits exhausted !! js "203.0.113.7" = Some 250
  /\ app env_unset vendor_accepts Number_toString_stub get_health exhausted
     = (Responded
          {| status := JNum (Dec false 200 0);
             payload := SendJson
               (JObj [(js "status", JStr (js "OK"));
                      (js "message", JStr (js "Backend is running"))]) |},
        exhausted).
Proof.
  split; [vm_compute; reflexivity|].
  exact (health_always_ok env_unset vendor_accepts Number_toString_stub
           get_health exhausted eq_refl eq_refl).
Defined.

(** ** The webhook handler *)

(** No JSON text begins with a bracket followed by the letter o. *)
Lemma parse_bracket_o (rest : JSString) :
  JSON.parse (JSON.ch "[" :: JSON.ch "o" :: rest) = None.
Proof. reflexivity. Qed.

Lemma get_not_nullish (v : JSValue) (k : JSString) :
  nullish v = false -> exists x, get v k = Some x.
Proof. destruct v; try discriminate; intros _; eexists; reflexivity. Qed.

Section Webhook.

Variable Number_toString : JSNumber -> JSString.

(** An array whose first element is an object prints as text that begins
    with [[object Object]]. *)
Lemma toString_object_first
    (ms : list (JSString * JSValue)) (rest : list JSValue) (text : JSString) :
  toString Number_toString (JArr (JObj ms :: rest)) = Some text ->
  exists tail, text = js "[object Object]" ++ tail.
Proof.
  unfold toString. cbn [nullish to_string map sequence fold_right].
  destruct (lookup_member (js "toString") ms); [discriminate|].
  destruct (fold_right _ _ _) as [parts|]; [|discriminate].
  intros [= <-]. eexists. reflexivity.
Qed.

(** Every batch of event objects that [express.json()] has parsed makes
    the handler throw before it answers. *)
Lemma parsed_batch_throws
    (ms : list (JSString * JSValue)) (rest : list JSValue) (w : World) :
  exists e,
    sendgrid_webhook Number_toString (post_webhook (JArr (JObj ms :: rest))) w
    = (Threw e, w).
Proof.
  unfold sendgrid_webhook. cbn [body post_webhook].
  destruct (toString _ _) as [text|] eqn:Ht; [|now exists TypeError].
  apply toString_object_first in Ht as [tail ->].
  exists SyntaxError. reflexivity.
Qed.

(** The callback succeeds on every event that is not [null]. *)
Lemma forEach_event_ok (events : list JSValue) :
  Forall (fun e => nullish e = false) events ->
  forall w, exists w', forEach_event events w = (Some tt, w').
Proof.
  induction 1 as [|e rest He _ IH]; intros w; [now exists w|].
  cbn [forEach_event]. unfold handle_event.
  destruct (get_not_nullish e (js "email") He) as [x1 ->].
  destruct (get_not_nullish e (js "event") He) as [x2 ->].
  destruct (get_not_nullish e (js "timestamp") He) as [x3 ->].
  destruct (get_not_nullish e (js "sg_message_id") He) as [x4 ->].
  cbn [mbind option_bind]. apply IH.
Qed.

(** What the handler does when the body does reach it as raw bytes that
    hold a JSON array without [null] elements: it acknowledges. *)
Lemma raw_batch_acknowledged
    (req : Request) (text : JSString) (events : list JSValue) (w : World) :
  body req = JBuffer text ->
  JSON.parse text = Some (JArr events) ->
  Forall (fun e => nullish e = false) events ->
  (sendgrid_webhook Number_toString req w).1 = Responded webhook_response.
Proof.
  intros Hb Hp Hev. unfold sendgrid_webhook. rewrite Hb. cbn [toString nullish to_string].
  rewrite Hp. destruct (forEach_event_ok events Hev w) as [w' ->]. reflexivity.
Qed.

(** The callback throws on a [null] event. *)
Lemma forEach_event_done (events : list JSValue) :
  forall w u w',
    forEach_event events w = (Some u, w') ->
    Forall (fun e => nullish e = false) events.
Proof.
  induction events as [|e rest IH]; intros w u w' H; [constructor|].
  cbn [forEach_event] in H.
  destruct (handle_event e w) as [w1|] eqn:He; [|discriminate H].
  constructor; [|now apply (IH w1 u w')].
  destruct e; try reflexivity; discriminate He.
Qed.

(** The requests that the handler does acknowledge: those whose body
    prints as the JSON text of an array without [null] elements. *)
Lemma acknowledged_iff (req : Request) (w : World) :
  (exists r, (sendgrid_webhook Number_toString req w).1 = Responded r)
  <-> exists text events,
        toString Number_toString (body req) = Some text
        /\ JSON.parse text = Some (JArr events)
        /\ Forall (fun e => nullish e = false) events.
Proof.
  unfold sendgrid_webhook. split.
  - intros [r Hr].
    destruct (toString _ _) as [text|]; [|discriminate Hr].
    destruct (JSON.parse text) as [[| | | | |events| |]|] eqn:Hp;
      try discriminate Hr.
    destruct (forEach_event events w) as [[u|] w'] eqn:Hf; [|discriminate Hr].
    exists text, events. split; [reflexivity|]. split; [exact Hp|].
    now apply (forEach_event_done events w u w').
  - intros (text & events & -> & -> & Hev).
    destruct (forEach_event_ok events Hev w) as [w' ->]. now eexists.
Qed.

(** C5, which the code does not keep: the claim is that every request to
    the webhook is answered with status 200 and the text "OK".  On a
    delivery event posted by SendGrid the handler throws a SyntaxError
    instead, because the body was already parsed by [express.json()] and
    its [toString()] is not JSON; and so it does on raw bytes that are not
    JSON. *)
Theorem delivery_event_not_acknowledged (w : World) :
  sendgrid_webhook Number_toString (post_webhook event_batch) w
  = (Threw SyntaxError, w)
  /\ sendgrid_webhook Number_toString (post_webhook (JBuffer (js "not json"))) w
     = (Threw SyntaxError, w).
Proof. split; reflexivity. Qed.

(** Nor is a JSON array with a [null] element. *)
Lemma null_event_throws (w : World) :
  sendgrid_webhook Number_toString (post_webhook (JBuffer (js "[null]"))) w
  = (Threw TypeError, w).
Proof. reflexivity. Qed.

(** Nor is JSON that is not an array. *)
Lemma non_array_throws (w : World) :
  sendgrid_webhook Number_toString (post_webhook (JBuffer (js "{}"))) w
  = (Threw TypeError, w).
Proof. reflexivity. Qed.

End Webhook.

Lemma raw_batch_acknowledged_example :
  sendgrid_webhook Number_toString_stub (post_webhook (JBuffer delivered_json))
    world0
  = (Responded {| status := JNum (Dec false 200 0); payload := SendText (js "OK") |},
     {| hits := ∅; vendor_calls := [];
        console := [LogSendGridEvent (JStr (js "a@b.c")) (JStr (js "delivered"))
                      (JNum (Dec false 1700000000 0)) JUndefined] |}).
Proof. vm_compute. reflexivity. Qed.

(** ** More on the send-email handler *)

Lemma get_nullish (v : JSValue) (k : JSString) :
  nullish v = true -> get v k = None.
Proof. destruct v; try discriminate; reflexivity. Qed.

Section SendEmailMore.

Variable env : Env.
Variable sgMail_send : nat -> Msg -> SendResult.

Lemma catch_block_console (e : JSError) (w : World) :
  console (catch_block e w).2 = console w ++ [LogSendGridError e].
Proof.
  unfold catch_block.
  destruct (truthy (err_response e)); [|reflexivity].
  cbn zeta. destruct (valid_status _); [|reflexivity].
  destruct (get (err_response e) (js "body") ≫= _); reflexivity.
Qed.

Lemma catch_block_hits (e : JSError) (w : World) :
  hits (catch_block e w).2 = hits w.
Proof.
  unfold catch_block.
  destruct (truthy (err_response e)); [|reflexivity].
  cbn zeta. destruct (valid_status _); [|reflexivity].
  destruct (get (err_response e) (js "body") ≫= _); reflexivity.
Qed.

(** When the [catch] block throws: on a code that is no status, and
    otherwise on a response without a body. *)
Lemma catch_block_throws_iff (e : JSError) (w : World) (ex : Exception) :
  (catch_block e w).1 = Threw ex <->
  truthy (err_response e) = true
  /\ ((valid_status (js_or (err_code e) (num_status 500)) = false
       /\ ex = InvalidStatus)
      \/ (valid_status (js_or (err_code e) (num_status 500)) = true
          /\ ex = TypeError
          /\ exists b, get (err_response e) (js "body") = Some b
                       /\ nullish b = true)).
Proof.
  unfold catch_block.
  destruct (truthy (err_response e)) eqn:Hr.
  - cbn zeta.
    destruct (valid_status (js_or (err_code e) (num_status 500))) eqn:Hv.
    + destruct (get_not_nullish (err_response e) (js "body")) as [b Hb].
      { destruct (err_response e); try reflexivity; discriminate Hr. }
      rewrite Hb. cbn [mbind option_bind].
      destruct (nullish b) eqn:Hn.
      * rewrite (get_nullish b (js "errors") Hn). cbn [fst]. split.
        -- intros [= <-]. split; [reflexivity|]. right. eauto.
        -- intros (_ & [[H _]|(_ & -> & _)]); [discriminate H|reflexivity].
      * destruct (get_not_nullish b (js "errors") Hn) as [x ->]. cbn [fst].
        split; [intros H; discriminate H|].
        intros (_ & [[H _]|(_ & _ & b' & [= <-] & Hn')]);
          [discriminate H|congruence].
    + cbn [fst]. split.
      * intros [= <-]. split; [reflexivity|]. left. split; reflexivity.
      * intros (_ & [[_ ->]|(H & _)]); [reflexivity|discriminate H].
  - cbn [fst]. split; [intros H; discriminate H|].
    intros (H & _). discriminate H.
Qed.

(** X1: a request whose body can be destructured is answered with the
    missing-fields 400 exactly when its [to] is falsy, its [subject] is
    falsy, or its [text] and [html] are both falsy. *)
Theorem validation_rejects_iff (req : Request) (w : World) (f : Fields) :
  destructure (body req) = Some f ->
  (send_email_handler env sgMail_send req w).1
  = Responded
      {| status := JNum (Dec false 400 0);
         payload := SendJson
           (JObj [(js "error",
                   JStr (js "Missing required fields: to, subject, and text/html"))]) |}
  <-> truthy (f_to f) = false \/ truthy (f_subject f) = false
      \/ (truthy (f_text f) = false /\ truthy (f_html f) = false).
Proof.
  intros Hd. rewrite <- missing_required_iff.
  destruct (missing_required f) eqn:Hm.
  - rewrite (rejected_on_validation env sgMail_send req w f Hd Hm).
    split; reflexivity.
  - rewrite (accepted_on_validation env sgMail_send req w f (conj Hd Hm)).
    split; [|intros H; discriminate H].
    destruct (sgMail_send _ _) as [response|e]; [intros H; discriminate H|].
    unfold catch_block. destruct (truthy (err_response e)).
    + cbn zeta. destruct (valid_status _); [|intros H; discriminate H].
      destruct (get (err_response e) (js "body") ≫= _); intros H; discriminate H.
    + intros H; discriminate H.
Qed.

(** X2: when [req.body] is [undefined] or [null], the destructuring of
    line 41 throws inside the [try]; the handler answers 500 "Server
    error" with the message of that TypeError, logs the error and does
    not call the vendor. *)
Theorem nullish_body_answered_500 (req : Request) (w : World) :
  nullish (body req) = true ->
  exists text,
    send_email_handler env sgMail_send req w
    = (Responded
         {| status := JNum (Dec false 500 0);
            payload := SendJson
              (JObj [(js "error", JStr (js "Server error"));
                     (js "details", JStr text)]) |},
       {| hits := hits w; vendor_calls := vendor_calls w;
          console := console w
            ++ [LogSendGridError
                  {| err_message := JStr text; err_code := JUndefined;
                     err_response := JUndefined |}] |}).
Proof.
  intros Hn. unfold send_email_handler.
  destruct (body req); try discriminate Hn; eexists; reflexivity.
Qed.

(** The vendor is called for the requests that pass validation, and only
    for them. *)
Lemma handler_vendor_calls (req : Request) (w : World) :
  vendor_calls (send_email_handler env sgMail_send req w).2
  = vendor_calls w
    ++ match destructure (body req) with
       | Some f => if missing_required f then [] else [build_msg env f]
       | None => []
       end.
Proof.
  unfold send_email_handler.
  destruct (destructure (body req)) as [f|].
  - destruct (missing_required f); [now rewrite app_nil_r|].
    cbn zeta. destruct (sgMail_send _ _); [reflexivity|].
    now rewrite catch_block_calls.
  - now rewrite catch_block_calls, app_nil_r.
Qed.

Lemma handler_hits (req : Request) (w : World) :
  hits (send_email_handler env sgMail_send req w).2 = hits w.
Proof.
  unfold send_email_handler.
  destruct (destructure (body req)) as [f|]; [|apply catch_block_hits].
  destruct (missing_required f); [reflexivity|].
  cbn zeta. destruct (sgMail_send _ _); [reflexivity|].
  now rewrite catch_block_hits.
Qed.

(** X3: in the payload of a valid request the sender email is the
    request's [fromEmail] when that is truthy, whatever the environment
    says, and otherwise the environment variable or the built-in address;
    likewise the sender name; the HTML body is the request's [html] when
    that is truthy and its [text] otherwise. *)
Theorem sender_and_html_resolution (req : Request) (w : World) (f : Fields) :
  valid_request req f ->
  exists msg,
    last (vendor_calls (send_email_handler env sgMail_send req w).2) = Some msg
    /\ msg_from_email msg
       = (if truthy (f_fromEmail f) then f_fromEmail f
          else JStr (configured_or (FROM_EMAIL env)
                       (js "anya.sunglassretailer@gmail.com")))
    /\ msg_from_name msg
       = (if truthy (f_fromName f) then f_fromName f
          else JStr (configured_or (FROM_NAME env) (js "Anya Ganger")))
    /\ msg_html msg = (if truthy (f_html f) then f_html f else f_text f).
Proof.
  intros Hv. exists (build_msg env f).
  rewrite (vendor_called_once env sgMail_send req w f Hv), last_snoc.
  split; [reflexivity|]. unfold build_msg; cbn.
  assert (Hs : forall x o d,
             js_or (js_or x (env_var o)) (JStr d)
             = if truthy x then x else JStr (configured_or o d)).
  { intros x o d. destruct (truthy x) eqn:Hx.
    - rewrite (js_or_truthy x) by assumption. now apply js_or_truthy.
    - rewrite (js_or_falsy x) by assumption.
      destruct o as [[|c s]|]; reflexivity. }
  rewrite !Hs. repeat split.
Qed.

(** X4: the payload of a valid request carries the request's [to],
    [subject] and [text] unchanged, and switches click tracking and open
    tracking on. *)
Theorem payload_passes_fields_through (req : Request) (w : World) (f : Fields) :
  valid_request req f ->
  exists msg,
    last (vendor_calls (send_email_handler env sgMail_send req w).2) = Some msg
    /\ msg_to msg = f_to f
    /\ msg_subject msg = f_subject f
    /\ msg_text msg = f_text f
    /\ msg_clickTracking msg = true
    /\ msg_openTracking msg = true.
Proof.
  intros Hv. exists (build_msg env f).
  rewrite (vendor_called_once env sgMail_send req w f Hv), last_snoc.
  repeat split.
Qed.

(** X5: a valid request writes exactly one line to the console: the
    success line with the message identifier when the vendor accepts, the
    error line when the vendor call throws. *)
Theorem valid_request_logs_once (req : Request) (w : World) (f : Fields) :
  valid_request req f ->
  console (send_email_handler env sgMail_send req w).2
  = console w
    ++ [match sgMail_send (length (vendor_calls w)) (build_msg env f) with
        | Resolved response =>
            LogEmailSent (f_to f) (f_subject f)
              (default JUndefined
                 (lookup_member (js "x-message-id") (resp_headers response)))
        | Rejected e => LogSendGridError e
        end].
Proof.
  intros Hv. rewrite (accepted_on_validation env sgMail_send req w f Hv).
  destruct (sgMail_send _ _); [reflexivity|].
  now rewrite catch_block_console.
Qed.

(** X6: the only exceptions that leave the handler are those of the
    [catch] block.  The handler throws exactly when the request is valid
    and the vendor call throws an error whose response is truthy, and
    either [error.code || 500] is no status code (an integer from 100 to
    999), where [res.status] throws, or it is one and the body of the
    response is [undefined] or [null], where reading [errors] throws a
    TypeError. *)
Theorem handler_throws_iff (req : Request) (w : World) (ex : Exception) :
  (send_email_handler env sgMail_send req w).1 = Threw ex <->
  exists f e,
    valid_request req f
    /\ sgMail_send (length (vendor_calls w)) (build_msg env f) = Rejected e
    /\ truthy (err_response e) = true
    /\ ((valid_status (js_or (err_code e) (num_status 500)) = false
         /\ ex = InvalidStatus)
        \/ (valid_status (js_or (err_code e) (num_status 500)) = true
            /\ ex = TypeError
            /\ exists b, get (err_response e) (js "body") = Some b
                         /\ nullish b = true)).
Proof.
  split.
  - unfold send_email_handler.
    destruct (destructure (body req)) as [f|] eqn:Hd.
    + destruct (missing_required f) eqn:Hm; [intros H; discriminate H|].
      cbn zeta. destruct (sgMail_send _ _) as [response|e] eqn:Hs;
        [intros H; discriminate H|].
      intros H. apply catch_block_throws_iff in H as (Hr & H).
      exists f, e. repeat split; assumption.
    + intros H. apply catch_block_throws_iff in H as (Hr & _).
      discriminate Hr.
  - intros (f & e & Hv & Hs & Hr & H).
    rewrite (accepted_on_validation env sgMail_send req w f Hv), Hs.
    apply catch_block_throws_iff. split; assumption.
Qed.

(** X8: the handler reports success only when the vendor accepted the
    message, and with the identifier of that response. *)
Theorem success_only_when_vendor_accepted
    (req : Request) (w : World) (messageId : JSValue) :
  (send_email_handler env sgMail_send req w).1
  = Responded
      {| status := JNum (Dec false 200 0);
         payload := SendJson
           (JObj [(js "success", JBool true);
                  (js "messageId", messageId);
                  (js "message", JStr (js "Email sent successfully"))]) |} ->
  exists f response,
    valid_request req f
    /\ sgMail_send (length (vendor_calls w)) (build_msg env f) = Resolved response
    /\ messageId
       = default JUndefined
           (lookup_member (js "x-message-id") (resp_headers response)).
Proof.
  assert (Hcatch : forall e w' r,
             (catch_block e w').1 = Responded r ->
             exists v d,
               payload r = SendJson (JObj [(js "error", v); (js "details", d)])).
  { intros e w' r. unfold catch_block.
    destruct (truthy (err_response e)).
    - cbn zeta. destruct (valid_status _); [|discriminate].
      destruct (get (err_response e) (js "body") ≫= _); [|discriminate].
      intros [= <-]. eauto.
    - intros [= <-]. eauto. }
  unfold send_email_handler.
  destruct (destructure (body req)) as [f|] eqn:Hd.
  - destruct (missing_required f) eqn:Hm; [intros H; discriminate H|].
    cbn zeta. destruct (sgMail_send _ _) as [response|e] eqn:Hs.
    + intros [= <-]. exists f, response. repeat split; assumption.
    + intros H. apply Hcatch in H as (v & d & H). discriminate H.
  - intros H. apply Hcatch in H as (v & d & H). discriminate H.
Qed.

End SendEmailMore.

Lemma count_where_cons {A} (p : A -> bool) (x : A) (l : list A) :
  count_where p (x :: l) = (if p x then 1 else 0) + count_where p l.
Proof.
  unfold count_where. rewrite filter_cons.
  destruct (decide (p x = true)) as [->|Hn]; [reflexivity|].
  now destruct (p x).
Qed.

Lemma str_eqb_eq (a b : JSString) : str_eqb a b = true <-> a = b.
Proof.
  revert b. induction a as [|x a IH]; intros [|y b]; cbn [str_eqb];
    try (split; [discriminate | discriminate]); [tauto|].
  rewrite andb_true_iff, N.eqb_eq, IH. split; [intros [-> ->] | intros [= -> ->]]; auto.
Qed.

Lemma str_eqb_refl (a : JSString) : str_eqb a a = true.
Proof. now apply str_eqb_eq. Qed.

Section Sequences.

Variable env : Env.
Variable sgMail_send : nat -> Msg -> SendResult.

Lemma handler_calls_length (req : Request) (w : World) :
  length (vendor_calls (send_email_handler env sgMail_send req w).2)
  = length (vendor_calls w) + (if passes_validation req then 1 else 0).
Proof.
  rewrite handler_vendor_calls, length_app. unfold passes_validation.
  destruct (destructure (body req)) as [f|]; [|reflexivity].
  now destruct (missing_required f).
Qed.

(** X7: over any sequence of requests served by the send-email handler,
    the vendor is called once for each request that passes validation and
    never for the others. *)
Theorem vendor_calls_count_valid_requests (reqs : list Request) :
  forall w,
    length (vendor_calls (serve (send_email_handler env sgMail_send) reqs w).2)
    = length (vendor_calls w) + count_where passes_validation reqs.
Proof.
  induction reqs as [|r rest IH]; intros w.
  - cbn. unfold count_where. cbn. lia.
  - cbn [serve]. pose proof (handler_calls_length r w) as Hr.
    destruct (send_email_handler env sgMail_send r w) as [o w1].
    specialize (IH w1). destruct (serve _ rest w1) as [os w2].
    cbn [snd] in *. rewrite IH, Hr, count_where_cons. lia.
Qed.

End Sequences.

(** ** More on the webhook handler *)

(** The [switch] changes nothing. *)
Lemma dispatch_event_id (kind : JSValue) (w : World) : dispatch_event kind w = w.
Proof.
  unfold dispatch_event. destruct kind; try reflexivity.
  repeat match goal with |- context [if ?b then _ else _] => destruct b end;
    reflexivity.
Qed.

Lemma handle_event_logs (e : JSValue) (w : World) :
  nullish e = false -> handle_event e w = Some (log (event_log e) w).
Proof.
  intros He. unfold handle_event, event_log.
  destruct (get_not_nullish e (js "email") He) as [x1 ->].
  destruct (get_not_nullish e (js "event") He) as [x2 ->].
  destruct (get_not_nullish e (js "timestamp") He) as [x3 ->].
  destruct (get_not_nullish e (js "sg_message_id") He) as [x4 ->].
  cbn [mbind option_bind default]. now rewrite dispatch_event_id.
Qed.

Lemma handle_event_null (e : JSValue) (w : World) :
  nullish e = true -> handle_event e w = None.
Proof. intros He. destruct e; try discriminate He; reflexivity. Qed.

(** The loop over a prefix of events that are not [null]. *)
Lemma forEach_event_app (good rest : list JSValue) :
  Forall (fun e => nullish e = false) good ->
  forall w,
    forEach_event (good ++ rest) w
    = forEach_event rest
        {| hits := hits w; vendor_calls := vendor_calls w;
           console := console w ++ map event_log good |}.
Proof.
  induction 1 as [|e good He _ IH]; intros w.
  - cbn [Datatypes.app map]. rewrite app_nil_r. now destruct w.
  - cbn [Datatypes.app forEach_event map]. rewrite (handle_event_logs e w He), IH.
    cbn [log hits vendor_calls console]. now rewrite <- app_assoc.
Qed.

Section WebhookMore.

Variable Number_toString : JSNumber -> JSString.

(** X9: when the body prints as the JSON text of an array without [null]
    elements, the handler answers 200 "OK" and its only effect is one
    console line per event, in the order of the array: the [switch] on the
    event kind changes nothing. *)
Theorem acknowledged_batch_only_logs
    (req : Request) (w : World) (text : JSString) (events : list JSValue) :
  toString Number_toString (body req) = Some text ->
  JSON.parse text = Some (JArr events) ->
  Forall (fun e => nullish e = false) events ->
  sendgrid_webhook Number_toString req w
  = (Responded {| status := JNum (Dec false 200 0); payload := SendText (js "OK") |},
     {| hits := hits w; vendor_calls := vendor_calls w;
        console := console w ++ map event_log events |}).
Proof.
  intros Ht Hp Hev. unfold sendgrid_webhook. rewrite Ht, Hp.
  rewrite <- (app_nil_r events) at 1.
  now rewrite (forEach_event_app events [] Hev w).
Qed.

(** X11: when the parsed array holds a [null], the handler logs the
    events before it and then throws a TypeError: no acknowledgement is
    sent and the later events are not looked at. *)
Theorem null_event_stops_batch
    (req : Request) (w : World) (text : JSString)
    (good : list JSValue) (bad : JSValue) (rest : list JSValue) :
  toString Number_toString (body req) = Some text ->
  JSON.parse text = Some (JArr (good ++ bad :: rest)) ->
  Forall (fun e => nullish e = false) good ->
  nullish bad = true ->
  sendgrid_webhook Number_toString req w
  = (Threw TypeError,
     {| hits := hits w; vendor_calls := vendor_calls w;
        console := console w ++ map event_log good |}).
Proof.
  intros Ht Hp Hgood Hbad. unfold sendgrid_webhook. rewrite Ht, Hp.
  rewrite (forEach_event_app good (bad :: rest) Hgood w).
  cbn [forEach_event]. now rewrite (handle_event_null bad _ Hbad).
Qed.

(** X10: a body that [express.json()] has parsed into an object, or into
    an array whose first element is an object, is never acknowledged: the
    handler throws and changes nothing. *)
Theorem parsed_body_never_acknowledged
    (req : Request) (w : World) (ms : list (JSString * JSValue))
    (rest : list JSValue) :
  body req = JObj ms \/ body req = JArr (JObj ms :: rest) ->
  exists e, sendgrid_webhook Number_toString req w = (Threw e, w).
Proof.
  intros [Hb|Hb]; unfold sendgrid_webhook; rewrite Hb.
  - cbn [toString nullish to_string].
    destruct (lookup_member (js "toString") ms); [now exists TypeError|].
    exists SyntaxError. reflexivity.
  - destruct (toString _ _) as [text|] eqn:Ht; [|now exists TypeError].
    apply toString_object_first in Ht as [tail ->].
    exists SyntaxError. reflexivity.
Qed.

Lemma forEach_event_frame (events : list JSValue) :
  forall w,
    hits (forEach_event events w).2 = hits w
    /\ vendor_calls (forEach_event events w).2 = vendor_calls w.
Proof.
  induction events as [|e rest IH]; intros w; [now split|].
  cbn [forEach_event]. destruct (nullish e) eqn:He.
  - rewrite (handle_event_null e w He). now split.
  - rewrite (handle_event_logs e w He). apply (IH (log (event_log e) w)).
Qed.

Lemma sendgrid_webhook_frame (req : Request) (w : World) :
  hits (sendgrid_webhook Number_toString req w).2 = hits w
  /\ vendor_calls (sendgrid_webhook Number_toString req w).2 = vendor_calls w.
Proof.
  unfold sendgrid_webhook.
  destruct (toString _ _) as [text|]; [|now split].
  destruct (JSON.parse text) as [[| | | | |events| |]|]; try now split.
  pose proof (forEach_event_frame events w) as H.
  destruct (forEach_event events w) as [[u|] w']; exact H.
Qed.

Lemma sendgrid_webhook_never_429 (req : Request) (w : World) :
  (sendgrid_webhook Number_toString req w).1 <> Responded too_many_requests.
Proof.
  unfold sendgrid_webhook.
  destruct (toString _ _) as [text|]; [|discriminate].
  destruct (JSON.parse text) as [[| | | | |events| |]|]; try discriminate.
  destruct (forEach_event events w) as [[u|] w']; discriminate.
Qed.

(** X12: whatever the request, the webhook handler never calls the vendor
    and never touches the store of the rate limiter. *)
Theorem webhook_touches_console_only (req : Request) (w : World) :
  hits (sendgrid_webhook Number_toString req w).2 = hits w
  /\ vendor_calls (sendgrid_webhook Number_toString req w).2 = vendor_calls w.
Proof. apply sendgrid_webhook_frame. Qed.

End WebhookMore.

(** ** The middleware stack over sequences of requests *)

Section Stack.

Variable env : Env.
Variable sgMail_send : nat -> Msg -> SendResult.
Variable Number_toString : JSNumber -> JSString.

Local Abbreviation app' := (app env sgMail_send Number_toString).
Local Abbreviation route' := (route env sgMail_send Number_toString).

Lemma route_hits (req : Request) (w : World) : hits (route' req w).2 = hits w.
Proof.
  unfold route.
  destruct (_ && _); [apply handler_hits|].
  destruct (_ && _); [reflexivity|].
  destruct (_ && _); [apply sendgrid_webhook_frame | reflexivity].
Qed.

Lemma route_never_429 (req : Request) (w : World) :
  (route' req w).1 <> Responded too_many_requests.
Proof.
  unfold route.
  destruct (_ && _).
  - intros H. apply handler_never_sends_text in H as [v H]. discriminate H.
  - destruct (_ && _); [discriminate|].
    destruct (_ && _); [apply sendgrid_webhook_never_429 | discriminate].
Qed.

(** Only the send-email route calls the vendor, and at most once. *)
Lemma route_calls (req : Request) (w : World) :
  length (vendor_calls (route' req w).2)
  <= length (vendor_calls w)
     + (if path_matches (js "/api/send-email") (path req) then 1 else 0).
Proof.
  unfold route.
  destruct (method_eqb (method req) POST
            && path_matches (js "/api/send-email") (path req)) eqn:H1.
  - apply andb_true_iff in H1 as [_ ->].
    rewrite handler_calls_length. destruct (passes_validation req); lia.
  - destruct ((method_eqb (method req) GET || method_eqb (method req) HEAD)
              && path_matches (js "/api/health") (path req));
      [apply Nat.le_add_r|].
    destruct (method_eqb (method req) POST
              && path_matches (js "/api/sendgrid-webhook") (path req));
      [|apply Nat.le_add_r].
    rewrite (proj2 (sendgrid_webhook_frame Number_toString req w)).
    apply Nat.le_add_r.
Qed.

(** A path that a route matches lies under the mount point of the same
    name. *)
Lemma path_matches_mounted (m p : JSString) :
  path_matches m p = true -> mounted_at m p = true.
Proof.
  unfold path_matches, mounted_at.
  destruct (strip_prefix m p) as [[|c [|c' rest]]|]; try discriminate; auto.
Qed.

(** One request, seen from the counter of a source. *)
Lemma app_hits (src : JSString) (req : Request) (w : World) :
  default 0 (hits (app' req w).2 !! src)
  = default 0 (hits w !! src) + (if counted_for src req then 1 else 0).
Proof.
  unfold app, counted_for, rate_limit.
  destruct (method_eqb (method req) OPTIONS); [cbn; lia|].
  destruct (mounted_at _ _); [|rewrite route_hits; cbn; lia].
  cbn [negb andb].
  assert (Hstore : forall w',
             hits w' = <[ip req := S (default 0 (hits w !! ip req))]> (hits w) ->
             default 0 (hits w' !! src)
             = default 0 (hits w !! src) + (if str_eqb (ip req) src then 1 else 0)).
  { intros w' ->. destruct (str_eqb (ip req) src) eqn:He.
    - apply str_eqb_eq in He as <-. rewrite lookup_insert_eq. cbn. lia.
    - rewrite lookup_insert_ne; [lia|]. intros <-. now rewrite str_eqb_refl in He. }
  destruct (_ <=? _); apply Hstore; [now rewrite route_hits | reflexivity].
Qed.

Lemma serve_hits (src : JSString) (reqs : list Request) :
  forall w,
    default 0 (hits (serve app' reqs w).2 !! src)
    = default 0 (hits w !! src) + count_where (counted_for src) reqs.
Proof.
  induction reqs as [|r rest IH]; intros w.
  - cbn. unfold count_where. cbn. lia.
  - cbn [serve]. pose proof (app_hits src r w) as Hr.
    destruct (app' r w) as [o w1]. specialize (IH w1).
    destruct (serve _ rest w1) as [os w2].
    cbn [snd] in *. rewrite IH, Hr, count_where_cons. lia.
Qed.

(** One counted request: rejected exactly when its source has 100 or
    more requests counted already. *)
Lemma app_rejects_iff (req : Request) (w : World) :
  counted_for (ip req) req = true ->
  (app' req w).1 = Responded too_many_requests
  <-> 100 <= default 0 (hits w !! ip req).
Proof.
  unfold counted_for. intros H.
  apply andb_true_iff in H as [H _]. apply andb_true_iff in H as [Ho Hm].
  apply negb_true_iff in Ho. unfold app, rate_limit. rewrite Ho, Hm.
  cbn [max emailRateLimit_options].
  destruct (Nat.leb_spec (S (default 0 (hits w !! ip req))) 100) as [Hle|Hgt].
  - split; [|lia]. intros Hr. now apply route_never_429 in Hr.
  - cbn [fst]. split; [lia | reflexivity].
Qed.

(** X15: a request that the rate limiter rejects is counted and has no
    other effect: the vendor is not called and nothing is logged. *)
Theorem rejected_request_only_counted (req : Request) (w : World) :
  counted_for (ip req) req = true ->
  100 <= default 0 (hits w !! ip req) ->
  app' req w
  = (Responded
       {| status := JNum (Dec false 429 0);
          payload := SendText
            (js "Too many email requests, please try again later.") |},
     {| hits := <[ip req := S (default 0 (hits w !! ip req))]> (hits w);
        vendor_calls := vendor_calls w;
        console := console w |}).
Proof.
  unfold counted_for. intros H Hfull.
  apply andb_true_iff in H as [H _]. apply andb_true_iff in H as [Ho Hm].
  apply negb_true_iff in Ho. unfold app, rate_limit. rewrite Ho, Hm.
  cbn [max emailRateLimit_options].
  destruct (Nat.leb_spec (S (default 0 (hits w !! ip req))) 100) as [Hle|Hgt];
    [lia | reflexivity].
Qed.

(** One request adds at most one vendor call, and none unless it is
    counted while the quota of its source lasts. *)
Lemma app_calls (req : Request) (w : World) :
  length (vendor_calls (app' req w).2)
  <= length (vendor_calls w)
     + (if counted_for (ip req) req && (default 0 (hits w !! ip req) <? 100)
        then 1 else 0).
Proof.
  unfold app, rate_limit, counted_for. rewrite str_eqb_refl, andb_true_r.
  destruct (method_eqb (method req) OPTIONS); [apply Nat.le_add_r|].
  destruct (mounted_at (js "/api/send-email") (path req)) eqn:Hm; cbn [negb andb].
  - cbn [max emailRateLimit_options].
    destruct (Nat.leb_spec (S (default 0 (hits w !! ip req))) 100) as [Hle|Hgt].
    + pose proof (route_calls req
                    (set_hits (<[ip req := S (default 0 (hits w !! ip req))]> (hits w)) w))
        as H.
      cbn [vendor_calls set_hits] in H.
      destruct (Nat.ltb_spec (default 0 (hits w !! ip req)) 100); [|lia].
      destruct (path_matches _ _); lia.
    + apply Nat.le_add_r.
  - pose proof (route_calls req w) as H.
    destruct (path_matches (js "/api/send-email") (path req)) eqn:Hp.
    + apply path_matches_mounted in Hp. congruence.
    + lia.
Qed.

Lemma serve_calls (src : JSString) (reqs : list Request) :
  Forall (fun r => ip r = src) reqs ->
  forall w,
    length (vendor_calls (serve app' reqs w).2)
    <= length (vendor_calls w) + (100 - default 0 (hits w !! src)).
Proof.
  induction 1 as [|r rest Hr _ IH]; intros w; [cbn; lia|].
  cbn [serve]. pose proof (app_calls r w) as Hc.
  pose proof (app_hits src r w) as Hh.
  destruct (app' r w) as [o w1]. specialize (IH w1).
  destruct (serve _ rest w1) as [os w2]. cbn [snd] in *.
  rewrite Hr in Hc.
  destruct (counted_for src r);
    destruct (Nat.ltb_spec (default 0 (hits w !! src)) 100);
    cbn [andb] in Hc; lia.
Qed.

End Stack.

(** ** The whole stack: preflights, the body parser and the windows *)


Section WholeStack.

Variable env : Env.
Variable sgMail_send : nat -> Msg -> SendResult.
Variable Number_toString : JSNumber -> JSString.

Local Abbreviation app' := (app env sgMail_send Number_toString).
Local Abbreviation route' := (route env sgMail_send Number_toString).
Local Abbreviation server' := (server env sgMail_send Number_toString).
Local Abbreviation window := (windowMs emailRateLimit_options).

















End WholeStack.

(** ** The whole stack at work *)

Example test_email_json_parsed : express_json (Json test_email_json) = inr test_email.
Proof. vm_compute. reflexivity. Qed.

Example status_400_accepted : valid_status (JNum (Dec false 400 0)) = true.
Proof. reflexivity. Qed.

Example status_4e2_accepted : valid_status (JNum (Dec false 4 2)) = true.
Proof. reflexivity. Qed.

Example status_404_5_refused : valid_status (JNum (Dec false 4045 (-1))) = false.
Proof. reflexivity. Qed.

Example status_1000_refused : valid_status (JNum (Dec false 1000 0)) = false.
Proof. reflexivity. Qed.

Example status_string_refused : valid_status (JStr (js "404")) = false.
Proof. reflexivity. Qed.

(** A vendor error with a response and a code that is no status: the
    [catch] block throws when it sets the status. *)
Example connection_reset_throws :
  (send_email_handler env_unset (vendor_rejects connection_reset)
     (post_send_email test_email) world0).1
  = Threw InvalidStatus.
Proof. vm_compute. reflexivity. Qed.

Example preflight_answered_by_cors :
  server env_unset vendor_accepts Number_toString_stub preflight server0
  = (Responded {| status := JNum (Dec false 204 0); payload := SendText [] |},
     server0).
Proof. vm_compute. reflexivity. Qed.

Example malformed_body_refused :
  server env_unset vendor_accepts Number_toString_stub post_malformed server0
  = (ParserError 400, server0).
Proof. vm_compute. reflexivity. Qed.

Example upper_case_route_served :
  (server env_unset vendor_accepts Number_toString_stub post_upper_case server0).1
  = Responded
      {| status := JNum (Dec false 200 0);
         payload := SendJson
           (JObj [(js "success", JBool true);
                  (js "messageId", JStr (js "Zs8bXfCxQeWQ0mRJ7lLJ7A"));
                  (js "message", JStr (js "Email sent successfully"))]) |}.
Proof. vm_compute. reflexivity. Qed.

Example health_with_slash_served :
  server env_unset vendor_accepts Number_toString_stub
    (arriving GET "/api/health/" t_first NoJson) server0
  = (Responded
       {| status := JNum (Dec false 200 0);
          payload := SendJson
            (JObj [(js "status", JStr (js "OK"));
                   (js "message", JStr (js "Backend is running"))]) |},
     server0).
Proof. vm_compute. reflexivity. Qed.

(** The window of a source ends 15 minutes after the first request
    counted in it: the request that arrives a millisecond before that is
    still rejected, the request that arrives at that time is processed. *)
Example window_ends_after_15_minutes :
  (server env_unset vendor_accepts Number_toString_stub
     (arriving POST "/api/send-email" (t_first + 899999) (Json test_email_json))
     (serve_all (server env_unset vendor_accepts Number_toString_stub)
        (replicate 100 post_test_email) server0).2).1
  = Responded too_many_requests
  /\ (server env_unset vendor_accepts Number_toString_stub
        (arriving POST "/api/send-email" (t_first + 900000) (Json test_email_json))
        (serve_all (server env_unset vendor_accepts Number_toString_stub)
           (replicate 100 post_test_email) server0).2).1
     = Responded
         {| status := JNum (Dec false 200 0);
            payload := SendJson
              (JObj [(js "success", JBool true);
                     (js "messageId", JStr (js "Zs8bXfCxQeWQ0mRJ7lLJ7A"));
                     (js "message", JStr (js "Email sent successfully"))]) |}.
Proof. split; vm_compute; reflexivity. Qed.

(** C1: the claim fails on the request without a body, in which the
    recipient, the subject and both bodies are missing.  [req.body] is
    then [undefined], the destructuring of line 41 throws before the
    validation of line 44 is reached, and the [catch] block answers 500
    "Server error" where the validation would answer 400. *)
Theorem request_without_body_answered_500
    (env : Env) (sgMail_send : nat -> Msg -> SendResult)
    (Number_toString : JSNumber -> JSString) :
  (server env sgMail_send Number_toString post_without_body server0).1
  = Responded
      {| status := JNum (Dec false 500 0);
         payload := SendJson
           (JObj [(js "error", JStr (js "Server error"));
                  (js "details", err_message (destructure_error JUndefined))]) |}.
Proof. vm_compute. reflexivity. Qed.



(** The same with the preflight of a browser in the first place, which
    [cors()] answers. *)
Example preflight_takes_no_place :
  (serve_all (server env_unset vendor_accepts Number_toString_stub)
     (preflight :: replicate 100 post_test_email) server0).1 !! 100
  = Some (Responded (success_response (JStr (js "Zs8bXfCxQeWQ0mRJ7lLJ7A")))).
Proof. vm_compute. reflexivity. Qed.





(** ** Regular expressions: the matcher decides the language *)

Module RegExpFacts.
Import RegExp.

Lemma lang_nil_nullable (r : Regex) (s : JSString) :
  lang r s -> s = [] -> nullable r = true.
Proof.
  induction 1 as [| | r1 r2 s1 s2 _ IH1 _ IH2 | r1 r2 s _ IH | r1 r2 s _ IH
                  | | ]; intros Hs; cbn [nullable]; try reflexivity.
  - discriminate Hs.
  - apply app_eq_nil in Hs as [-> ->]. now rewrite IH1, IH2.
  - now rewrite IH.
  - rewrite IH by assumption. apply orb_true_r.
Qed.

Lemma nullable_lang_nil (r : Regex) : nullable r = true -> lang r [].
Proof.
  induction r as [| | p | r1 IH1 r2 IH2 | r1 IH1 r2 IH2 | r IH];
    cbn [nullable]; intros H; try discriminate H.
  - constructor.
  - apply andb_true_iff in H as [H1 H2].
    change (@nil N) with (@nil N ++ []). constructor; auto.
  - apply orb_true_iff in H as [H|H]; [apply lang_alt_l | apply lang_alt_r]; auto.
  - constructor.
Qed.

Lemma deriv_sound (c : N) (r : Regex) :
  forall s, lang (deriv c r) s -> lang r (c :: s).
Proof.
  induction r as [| | p | r1 IH1 r2 IH2 | r1 IH1 r2 IH2 | r IH];
    intros s H; cbn [deriv] in H.
  - inversion H.
  - inversion H.
  - destruct (p c) eqn:Hp; inversion H; subst. now constructor.
  - assert (Hleft : forall t, lang (Cat (deriv c r1) r2) t -> lang (Cat r1 r2) (c :: t)).
    { intros t Ht. inversion Ht as [| | ? ? s1 s2 H1 H2 | | | |]; subst.
      change (c :: s1 ++ s2) with ((c :: s1) ++ s2). constructor; auto. }
    destruct (nullable r1) eqn:Hn; [|now apply Hleft].
    inversion H; subst; [now apply Hleft|].
    change (c :: s) with ([] ++ c :: s).
    constructor; [now apply nullable_lang_nil | auto].
  - inversion H; subst; [apply lang_alt_l | apply lang_alt_r]; auto.
  - inversion H as [| | ? ? s1 s2 H1 H2 | | | |]; subst.
    change (c :: s1 ++ s2) with ((c :: s1) ++ s2). constructor; auto.
Qed.

Lemma deriv_complete (r : Regex) (t : JSString) :
  lang r t -> forall c s, t = c :: s -> lang (deriv c r) s.
Proof.
  induction 1 as [| p c0 Hp | r1 r2 s1 s2 H1 IH1 H2 IH2 | r1 r2 s0 _ IH
                  | r1 r2 s0 _ IH | | r s1 s2 H1 IH1 H2 IH2];
    intros c s Ht; cbn [deriv].
  - discriminate Ht.
  - injection Ht as -> <-. rewrite Hp. constructor.
  - destruct s1 as [|c1 s1'].
    + cbn [app] in Ht. rewrite (lang_nil_nullable r1 [] H1 eq_refl).
      apply lang_alt_r. now apply IH2.
    + injection Ht as -> <-.
      assert (lang (Cat (deriv c r1) r2) (s1' ++ s2))
        by (constructor; [now apply IH1 | assumption]).
      destruct (nullable r1); [now apply lang_alt_l | assumption].
  - apply lang_alt_l. now apply IH.
  - apply lang_alt_r. now apply IH.
  - discriminate Ht.
  - destruct s1 as [|c1 s1'].
    + now apply IH2.
    + injection Ht as -> <-. constructor; [now apply IH1 | assumption].
Qed.

(** The matcher accepts exactly the strings of the language. *)
Lemma test_lang (s : JSString) : forall r, test r s = true <-> lang r s.
Proof.
  induction s as [|c s IH]; intros r; cbn [test].
  - split; [apply nullable_lang_nil | intros H; now apply (lang_nil_nullable r [])].
  - rewrite IH. split; [apply deriv_sound | intros H; now apply (deriv_complete r (c :: s))].
Qed.

Lemma lang_cat_inv (r1 r2 : Regex) (s : JSString) :
  lang (Cat r1 r2) s <-> exists s1 s2, s = s1 ++ s2 /\ lang r1 s1 /\ lang r2 s2.
Proof.
  split.
  - intros H. inversion H; subst. eauto.
  - intros (s1 & s2 & -> & H1 & H2). now constructor.
Qed.

Lemma lang_class_inv (p : N -> bool) (s : JSString) :
  lang (Class p) s <-> exists c, s = [c] /\ p c = true.
Proof.
  split.
  - intros H. inversion H; subst. eauto.
  - intros (c & -> & Hp). now constructor.
Qed.

Lemma lang_chr (a : ascii) (s : JSString) : lang (chr a) s <-> s = [N_of_ascii a].
Proof.
  unfold chr. rewrite lang_class_inv. split.
  - intros (c & -> & Hc). apply N.eqb_eq in Hc. now subst.
  - intros ->. eexists. split; [reflexivity | apply N.eqb_refl].
Qed.

Lemma lang_star_class (p : N -> bool) (s : JSString) :
  lang (Star (Class p)) s <-> Forall (fun c => p c = true) s.
Proof.
  split.
  - intros H. remember (Star (Class p)) as r eqn:Hr.
    induction H as [| | | | | | r0 s1 s2 H1 _ H2 IH2]; try discriminate Hr.
    + constructor.
    + injection Hr as ->. inversion H1; subst. constructor; auto.
  - induction 1 as [|c s Hc _ IH]; [constructor|].
    change (c :: s) with ([c] ++ s). constructor; [now constructor | assumption].
Qed.

Lemma lang_plus_class (p : N -> bool) (s : JSString) :
  lang (plus (Class p)) s <-> s <> [] /\ Forall (fun c => p c = true) s.
Proof.
  unfold plus. rewrite lang_cat_inv. split.
  - intros (s1 & s2 & -> & H1 & H2).
    apply lang_class_inv in H1 as (c & -> & Hc). apply lang_star_class in H2.
    split; [discriminate | now constructor].
  - intros [Hne Hall]. destruct Hall as [|c s Hc Hall]; [contradiction|].
    exists [c], s. repeat split; [now constructor | now apply lang_star_class].
Qed.

End RegExpFacts.

(** ** [validateEmail] *)

Lemma emailRegex_lang (s : JSString) :
  RegExp.lang emailRegex s <->
  exists a b c, s = a ++ 64%N :: b ++ 46%N :: c
                /\ email_part a /\ email_part b /\ email_part c.
Proof.
  unfold emailRegex, email_part. split.
  - intros H.
    apply RegExpFacts.lang_cat_inv in H as (a & t1 & -> & Ha & H).
    apply RegExpFacts.lang_cat_inv in H as (x & t2 & -> & Hx & H).
    apply RegExpFacts.lang_cat_inv in H as (b & t3 & -> & Hb & H).
    apply RegExpFacts.lang_cat_inv in H as (y & c & -> & Hy & Hc).
    apply RegExpFacts.lang_chr in Hx as ->. apply RegExpFacts.lang_chr in Hy as ->.
    apply RegExpFacts.lang_plus_class in Ha, Hb, Hc.
    exists a, b, c. split; [reflexivity|]. auto.
  - intros (a & b & c & -> & Ha & Hb & Hc).
    apply RegExpFacts.lang_plus_class in Ha, Hb, Hc.
    constructor; [exact Ha|].
    change (64%N :: b ++ 46%N :: c) with ([64%N] ++ b ++ 46%N :: c).
    constructor; [now apply RegExpFacts.lang_chr|].
    constructor; [exact Hb|].
    change (46%N :: c) with ([46%N] ++ c).
    constructor; [now apply RegExpFacts.lang_chr | exact Hc].
Qed.

Section ValidateEmail.

Variable Number_toString : JSNumber -> JSString.

Lemma validateEmail_string (s : JSString) :
  validateEmail Number_toString (JStr s) = Some true <->
  exists a b c, s = a ++ 64%N :: b ++ 46%N :: c
                /\ email_part a /\ email_part b /\ email_part c.
Proof.
  unfold validateEmail. cbn [to_string option_map].
  rewrite <- emailRegex_lang, <- RegExpFacts.test_lang.
  split; [now intros [= ->] | now intros ->].
Qed.

(** X17: [validateEmail] accepts a string exactly when it is made of
    three non-empty runs of code units other than white space and the at
    sign, the first two joined by an at sign and the last two by a full
    stop. *)
Theorem validateEmail_accepts_iff (s : JSString) :
  validateEmail Number_toString (JStr s) = Some true <->
  exists a b c, s = a ++ 64%N :: b ++ 46%N :: c
                /\ email_part a /\ email_part b /\ email_part c.
Proof. apply validateEmail_string. Qed.

Lemma email_part_no_at (s : JSString) :
  email_part s -> count_where (N.eqb 64) s = 0.
Proof.
  intros [_ H]. unfold count_where.
  induction H as [|c s Hc _ IH]; [reflexivity|].
  rewrite filter_cons. destruct (decide (N.eqb 64 c = true)) as [He|_]; [|exact IH].
  apply N.eqb_eq in He. subst c. discriminate Hc.
Qed.

Lemma email_part_no_space (s : JSString) :
  email_part s -> Forall (fun c => is_space c = false) s.
Proof.
  intros [_ H]. eapply Forall_impl; [exact H|].
  intros c Hc. unfold not_space_at in Hc.
  apply negb_true_iff, orb_false_iff in Hc. tauto.
Qed.

Lemma count_where_app {A} (p : A -> bool) (l1 l2 : list A) :
  count_where p (l1 ++ l2) = count_where p l1 + count_where p l2.
Proof. unfold count_where. now rewrite filter_app, length_app. Qed.

(** X18: what [validateEmail] accepts holds exactly one at sign, no white
    space, and at least five code units. *)
Theorem validateEmail_accepted_shape (s : JSString) :
  validateEmail Number_toString (JStr s) = Some true ->
  count_where (N.eqb 64) s = 1
  /\ Forall (fun c => is_space c = false) s
  /\ 5 <= length s.
Proof.
  intros H. apply validateEmail_string in H
    as (a & b & c & -> & Ha & Hb & Hc).
  repeat split.
  - change (a ++ 64%N :: b ++ 46%N :: c) with (a ++ [64%N] ++ b ++ [46%N] ++ c).
    rewrite !count_where_app.
    rewrite (email_part_no_at a Ha), (email_part_no_at b Hb), (email_part_no_at c Hc).
    reflexivity.
  - apply Forall_app. split; [now apply email_part_no_space|].
    constructor; [reflexivity|].
    apply Forall_app. split; [now apply email_part_no_space|].
    constructor; [reflexivity | now apply email_part_no_space].
  - destruct Ha as [Ha _], Hb as [Hb _], Hc as [Hc _].
    destruct a; [contradiction|]. destruct b; [contradiction|].
    destruct c; [contradiction|].
    rewrite length_app. cbn [length]. rewrite length_app. cbn [length]. lia.
Qed.

End ValidateEmail.

(** ** [handleSendGridError] *)

Lemma error_line_some (err : JSValue) :
  nullish err = false -> exists line, error_line err = Some line.
Proof.
  intros He. unfold error_line, default_line.
  destruct (get_not_nullish err (js "field") He) as [field ->].
  destruct (get_not_nullish err (js "message") He) as [message ->].
  cbn [mbind option_bind].
  destruct field; eauto.
  destruct (str_eqb s (js "from.email")); eauto.
  destruct (str_eqb s (js "personalizations.0.to")); eauto.
Qed.

Lemma error_line_none (err : JSValue) :
  nullish err = true -> error_line err = None.
Proof. intros He. destruct err; try discriminate He; reflexivity. Qed.

(** The loop runs to its end exactly on arrays without [null] entries,
    and then writes one line per entry, in order. *)
Lemma forEach_error_done (errs : list JSValue) :
  Forall (fun err => nullish err = false) errs ->
  exists lines,
    forEach_error errs = (lines, true)
    /\ Forall2 (fun err line => error_line err = Some line) errs lines.
Proof.
  induction 1 as [|err errs He _ (lines & IH & Hl)].
  - exists []. split; [reflexivity | constructor].
  - destruct (error_line_some err He) as [line Hline].
    exists (line :: lines). cbn [forEach_error]. rewrite Hline, IH.
    split; [reflexivity | now constructor].
Qed.

Lemma forEach_error_stopped (errs : list JSValue) :
  Exists (fun err => nullish err = true) errs -> (forEach_error errs).2 = false.
Proof.
  induction errs as [|err errs IH]; intros H; [inversion H|].
  cbn [forEach_error]. destruct (nullish err) eqn:He.
  - now rewrite (error_line_none err He).
  - destruct (error_line_some err He) as [line ->].
    inversion H as [? ? Hn|? ? Hn]; subst; [congruence|].
    specialize (IH Hn). destruct (forEach_error errs) as [lines ok]. exact IH.
Qed.

Lemma Forall_or_Exists_nullish (errs : list JSValue) :
  Forall (fun err => nullish err = false) errs
  \/ Exists (fun err => nullish err = true) errs.
Proof.
  induction errs as [|err errs [IH|IH]].
  - left. constructor.
  - destruct (nullish err) eqn:He; [right; now left | left; now constructor].
  - right. now right.
Qed.

Section HandleSendGridError.

Variable Buffer_byteLength : JSString -> nat.

Local Abbreviation handle := (handleSendGridError Buffer_byteLength).

(** X20: whenever [handleSendGridError] returns, it returns the message
    of the error it was given, whatever it has written to the console. *)
Theorem handleSendGridError_returns_message
    (e : JSError) (lines : list (list JSValue)) (v : JSValue) :
  handle e = (lines, Some v) -> v = err_message e.
Proof.
  unfold handleSendGridError.
  destruct (truthy (err_response e)); [|now intros [= _ <-]].
  destruct (get (err_response e) (js "body") ≫= _) as [errors|]; [|discriminate].
  destruct (truthy errors); [|now intros [= _ <-]].
  destruct errors; try discriminate.
  - destruct (forEach_error elems) as [ls [|]]; [now intros [= _ <-] | discriminate].
  - now intros [= _ <-].
Qed.

(** X21: for a vendor error whose response body lists its errors in an
    array without [null] entries, [handleSendGridError] writes exactly one
    console line per listed error, in the order of the list, and returns
    the message of the error. *)
Theorem handleSendGridError_one_line_per_error
    (e : JSError) (b : JSValue) (errs : list JSValue) :
  truthy (err_response e) = true ->
  get (err_response e) (js "body") = Some b ->
  get b (js "errors") = Some (JArr errs) ->
  Forall (fun err => nullish err = false) errs ->
  exists lines,
    handle e = (lines, Some (err_message e))
    /\ length lines = length errs
    /\ Forall2 (fun err line => error_line err = Some line) errs lines.
Proof.
  intros Hr Hb He Hall. unfold handleSendGridError.
  rewrite Hr, Hb. cbn [mbind option_bind]. rewrite He. cbn [truthy].
  destruct (forEach_error_done errs Hall) as (lines & -> & Hl).
  exists lines. repeat split; [|exact Hl].
  symmetry. exact (Forall2_length _ _ _ Hl).
Qed.

(** X22: [handleSendGridError] throws exactly when the error has a truthy
    response and either the body of the response is [undefined] or
    [null], or its [errors] is truthy without being an array or a buffer,
    or its [errors] is an array with a [null] or [undefined] entry. *)
Theorem handleSendGridError_throws_iff (e : JSError) :
  (handle e).2 = None <->
  truthy (err_response e) = true
  /\ exists b,
       get (err_response e) (js "body") = Some b
       /\ (nullish b = true
           \/ exists errors,
                get b (js "errors") = Some errors
                /\ truthy errors = true
                /\ match errors with
                   | JArr errs => Exists (fun err => nullish err = true) errs
                   | JBuffer _ => False
                   | _ => True
                   end).
Proof.
  unfold handleSendGridError.
  destruct (truthy (err_response e)) eqn:Hr;
    [|split; [discriminate | now intros [? _]]].
  destruct (get_not_nullish (err_response e) (js "body")) as [b Hb].
  { destruct (err_response e); try reflexivity; discriminate Hr. }
  rewrite Hb. cbn [mbind option_bind].
  destruct (nullish b) eqn:Hn.
  { rewrite (get_nullish b _ Hn). cbn [snd]. split; [|reflexivity].
    intros _. split; [reflexivity|]. exists b. auto. }
  destruct (get_not_nullish b (js "errors") Hn) as [errors He]. rewrite He.
  assert (Hmain :
    (if truthy errors
     then match errors with
          | JArr errs =>
              let (lines, ok) := forEach_error errs in
              (lines, if ok then Some (err_message e) else None)
          | JBuffer text =>
              (replicate (Buffer_byteLength text)
                 [JStr (js "SendGrid error:"); JUndefined],
               Some (err_message e))
          | _ => ([], None)
          end
     else ([], Some (err_message e))).2 = None
    <-> truthy errors = true
        /\ match errors with
           | JArr errs => Exists (fun err => nullish err = true) errs
           | JBuffer _ => False
           | _ => True
           end).
  { destruct (truthy errors) eqn:Ht; [|split; [discriminate | now intros [? _]]].
    destruct errors; cbn [snd]; try (split; [auto | reflexivity]).
    - destruct (Forall_or_Exists_nullish elems) as [Hall|Hex].
      + destruct (forEach_error_done elems Hall) as (lines & -> & _). cbn [snd].
        split; [discriminate|]. intros [_ Hex].
        apply Exists_exists in Hex as (x & Hin & Hx).
        rewrite Forall_forall in Hall. specialize (Hall x Hin). congruence.
      + pose proof (forEach_error_stopped elems Hex) as Hs.
        destruct (forEach_error elems) as [lines ok]. cbn [snd] in *. subst ok.
        split; auto.
    - split; [discriminate | now intros [_ ?]]. }
  rewrite Hmain. split.
  - intros [Ht Hm]. split; [reflexivity|]. exists b. split; [reflexivity|].
    right. exists errors. auto.
  - intros (_ & b' & [= <-] & [Hn'|(errors' & He' & Ht & Hm)]); [congruence|].
    rewrite He in He'. injection He' as <-. auto.
Qed.

(** X23: on every error whose status [error.code || 500] is one that
    [res.status] accepts and on which the [catch] block of the send-email
    handler throws all the same, as it does on reading the error list of
    a response without a body, [handleSendGridError] throws as well: it
    reads the body of the response in the same unguarded way.  (Where the
    [catch] block throws because [error.code] is no status code,
    [handleSendGridError], which sets no status, need not throw.) *)
Theorem catch_block_throws_handleSendGridError_throws
    (e : JSError) (w : World) (ex : Exception) :
  valid_status (js_or (err_code e) (JNum (Dec false 500 0))) = true ->
  (catch_block e w).1 = Threw ex ->
  (handle e).2 = None.
Proof.
  intros Hvalid H.
  apply catch_block_throws_iff in H
    as (Hr & [[H _]|(_ & _ & b & Hb & Hn)]).
  - change (num_status 500) with (JNum (Dec false 500 0)) in H. congruence.
  - unfold handleSendGridError. rewrite Hr, Hb. cbn [mbind option_bind].
    now rewrite (get_nullish b _ Hn).
Qed.

End HandleSendGridError.

Section ValidateEmailMore.

Variable Number_toString : JSNumber -> JSString.

(** X19: [validateEmail] converts its argument to a string before it
    tests it: an array holding one string is judged as that string, a
    buffer as its text; [undefined], [null], booleans and objects are
    never accepted. *)
Theorem validateEmail_converts_argument :
  (forall s, validateEmail Number_toString (JArr [JStr s])
             = validateEmail Number_toString (JStr s))
  /\ (forall text, validateEmail Number_toString (JBuffer text)
                   = validateEmail Number_toString (JStr text))
  /\ validateEmail Number_toString JUndefined = Some false
  /\ validateEmail Number_toString JNull = Some false
  /\ (forall b, validateEmail Number_toString (JBool b) = Some false)
  /\ (forall ms, validateEmail Number_toString (JObj ms) <> Some true).
Proof.
  repeat split.
  - intros s. unfold validateEmail. cbn. now rewrite app_nil_r.
  - intros [|]; reflexivity.
  - intros ms. unfold validateEmail. cbn [to_string].
    destruct (lookup_member (js "toString") ms); discriminate.
Qed.

End ValidateEmailMore.

(** ** The properties above at work *)

Lemma validation_rejects_iff_witness :
  (send_email_handler env_unset vendor_accepts
     (post_send_email no_recipient) world0).1
  = Responded
      {| status := JNum (Dec false 400 0);
         payload := SendJson
           (JObj [(js "error",
                   JStr (js "Missing required fields: to, subject, and text/html"))]) |}
  <-> truthy (f_to no_recipient_fields) = false
      \/ truthy (f_subject no_recipient_fields) = false
      \/ (truthy (f_text no_recipient_fields) = false
          /\ truthy (f_html no_recipient_fields) = false).
Proof.
  exact (validation_rejects_iff env_unset vendor_accepts
           (post_send_email no_recipient) world0 no_recipient_fields eq_refl).
Defined.

Lemma nullish_body_answered_500_witness :
  exists text,
    send_email_handler env_unset vendor_accepts (post_send_email JUndefined) world0
    = (Responded
         {| status := JNum (Dec false 500 0);
            payload := SendJson
              (JObj [(js "error", JStr (js "Server error"));
                     (js "details", JStr text)]) |},
       {| hits := hits world0; vendor_calls := vendor_calls world0;
          console := console world0
            ++ [LogSendGridError
                  {| err_message := JStr text; err_code := JUndefined;
                     err_response := JUndefined |}] |}).
Proof.
  exact (nullish_body_answered_500 env_unset vendor_accepts
           (post_send_email JUndefined) world0 eq_refl).
Defined.

Lemma sender_and_html_resolution_witness :
  exists msg,
    last (vendor_calls (send_email_handler env_configured vendor_accepts
                          (post_send_email test_email) world0).2) = Some msg
    /\ msg_from_email msg
       = (if truthy (f_fromEmail test_email_fields) then f_fromEmail test_email_fields
          else JStr (configured_or (FROM_EMAIL env_configured)
                       (js "anya.sunglassretailer@gmail.com")))
    /\ msg_from_name msg
       = (if truthy (f_fromName test_email_fields) then f_fromName test_email_fields
          else JStr (configured_or (FROM_NAME env_configured) (js "Anya Ganger")))
    /\ msg_html msg
       = (if truthy (f_html test_email_fields) then f_html test_email_fields
          else f_text test_email_fields).
Proof.
  exact (sender_and_html_resolution env_configured vendor_accepts
           (post_send_email test_email) world0 test_email_fields
           (conj eq_refl eq_refl)).
Defined.

Lemma payload_passes_fields_through_witness :
  exists msg,
    last (vendor_calls (send_email_handler env_unset vendor_accepts
                          (post_send_email test_email) world0).2) = Some msg
    /\ msg_to msg = f_to test_email_fields
    /\ msg_subject msg = f_subject test_email_fields
    /\ msg_text msg = f_text test_email_fields
    /\ msg_clickTracking msg = true
    /\ msg_openTracking msg = true.
Proof.
  exact (payload_passes_fields_through env_unset vendor_accepts
           (post_send_email test_email) world0 test_email_fields
           (conj eq_refl eq_refl)).
Defined.

Lemma valid_request_logs_once_witness :
  console (send_email_handler env_unset (vendor_rejects socket_hang_up)
             (post_send_email test_email) world0).2
  = [LogSendGridError socket_hang_up].
Proof.
  exact (valid_request_logs_once env_unset (vendor_rejects socket_hang_up)
           (post_send_email test_email) world0 test_email_fields
           (conj eq_refl eq_refl)).
Defined.

Lemma success_only_when_vendor_accepted_witness :
  exists f response,
    valid_request (post_send_email test_email) f
    /\ vendor_accepts (length (vendor_calls world0)) (build_msg env_unset f)
       = Resolved response
    /\ JStr (js "Zs8bXfCxQeWQ0mRJ7lLJ7A")
       = default JUndefined
           (lookup_member (js "x-message-id") (resp_headers response)).
Proof.
  exact (success_only_when_vendor_accepted env_unset vendor_accepts
           (post_send_email test_email) world0
           (JStr (js "Zs8bXfCxQeWQ0mRJ7lLJ7A")) eq_refl).
Defined.

Lemma acknowledged_batch_only_logs_witness :
  sendgrid_webhook Number_toString_stub (post_webhook (JBuffer delivered_json)) world0
  = (Responded {| status := JNum (Dec false 200 0); payload := SendText (js "OK") |},
     {| hits := hits world0; vendor_calls := vendor_calls world0;
        console := console world0 ++ map event_log delivered_events |}).
Proof.
  apply (acknowledged_batch_only_logs Number_toString_stub
           (post_webhook (JBuffer delivered_json)) world0
           delivered_json delivered_events).
  - reflexivity.
  - reflexivity.
  - repeat constructor.
Defined.

Lemma parsed_body_never_acknowledged_witness :
  exists e,
    sendgrid_webhook Number_toString_stub (post_webhook event_batch) world0
    = (Threw e, world0).
Proof.
  apply (parsed_body_never_acknowledged Number_toString_stub
           (post_webhook event_batch) world0
           [(js "email", JStr (js "samanthamdurrant@gmail.com"));
            (js "event", JStr (js "delivered"));
            (js "timestamp", JNum (num 1700000000));
            (js "sg_message_id", JStr (js "Zs8bXfCxQeWQ0mRJ7lLJ7A"))]
           []).
  right. reflexivity.
Defined.

Lemma null_event_stops_batch_witness :
  sendgrid_webhook Number_toString_stub
    (post_webhook (JBuffer (js "[1,null,2]"))) world0
  = (Threw TypeError,
     {| hits := hits world0; vendor_calls := vendor_calls world0;
        console := console world0 ++ map event_log [JNum (num 1)] |}).
Proof.
  apply (null_event_stops_batch Number_toString_stub
           (post_webhook (JBuffer (js "[1,null,2]"))) world0
           (js "[1,null,2]") [JNum (num 1)] JNull [JNum (num 2)]).
  - reflexivity.
  - reflexivity.
  - repeat constructor.
  - reflexivity.
Defined.

Lemma rejected_request_only_counted_witness :
  app env_unset vendor_accepts Number_toString_stub
    (post_send_email test_email) exhausted
  = (Responded
       {| status := JNum (Dec false 429 0);
          payload := SendText
            (js "Too many email requests, please try again later.") |},
     {| hits := <[js "203.0.113.7" := 251]> (hits exhausted);
        vendor_calls := []; console := [] |}).
Proof.
  apply (rejected_request_only_counted env_unset vendor_accepts
           Number_toString_stub (post_send_email test_email) exhausted).
  - reflexivity.
  - vm_compute. lia.
Defined.

Lemma validateEmail_accepted_shape_witness :
  count_where (N.eqb 64) (js "samanthamdurrant@gmail.com") = 1
  /\ Forall (fun c => is_space c = false) (js "samanthamdurrant@gmail.com")
  /\ 5 <= length (js "samanthamdurrant@gmail.com").
Proof.
  exact (validateEmail_accepted_shape Number_toString_stub
           (js "samanthamdurrant@gmail.com") eq_refl).
Defined.

Lemma handleSendGridError_returns_message_witness :
  handleSendGridError Buffer_byteLength_stub two_errors
  = ([[JStr sender_hint]; [JStr recipient_hint]], Some (JStr (js "Bad Request")))
  /\ JStr (js "Bad Request") = err_message two_errors.
Proof.
  split; [reflexivity|].
  exact (handleSendGridError_returns_message Buffer_byteLength_stub two_errors
           [[JStr sender_hint]; [JStr recipient_hint]]
           (JStr (js "Bad Request")) eq_refl).
Defined.

Lemma handleSendGridError_one_line_per_error_witness :
  exists lines,
    handleSendGridError Buffer_byteLength_stub two_errors
    = (lines, Some (err_message two_errors))
    /\ length lines = length two_errors_list
    /\ Forall2 (fun err line => error_line err = Some line) two_errors_list lines.
Proof.
  apply (handleSendGridError_one_line_per_error Buffer_byteLength_stub
           two_errors two_errors_body two_errors_list).
  - reflexivity.
  - reflexivity.
  - reflexivity.
  - repeat constructor.
Defined.

Lemma catch_block_throws_handleSendGridError_throws_witness :
  (catch_block bodyless_error world0).1 = Threw TypeError
  /\ (handleSendGridError Buffer_byteLength_stub bodyless_error).2 = None.
Proof.
  split; [reflexivity|].
  exact (catch_block_throws_handleSendGridError_throws Buffer_byteLength_stub
           bodyless_error world0 TypeError eq_refl eq_refl).
Defined.
